(** * jupyter_events: the [EventLogger] emission pipeline

    A shallow embedding of [jupyter_events/logger.py].  The logger object,
    the Python heap holding the caller's event dictionaries, the warnings
    machinery and the underlying [logging.Logger] are threaded through a
    state-and-exception monad: a raised exception keeps every mutation made
    before it, as in Python.

    What lies outside the module is a parameter: the [SchemaRegistry], the
    [datetime] library and the callables registered as modifiers and
    listeners.  Three things are taken for granted about them.  Validation
    and [isoformat] do not mutate anything.  A modifier reaches the event
    only through the dictionary it is handed.  Listeners are coroutine
    functions and [emit] runs inside an event loop, so that scheduling a
    listener creates a task and runs none of its body. *)

From stdpp Require Import gmap strings list fin_maps.

Open Scope string_scope.
Open Scope list_scope.
Open Scope nat_scope.

(** ** Python values and exceptions *)

(** JSON-like values stored in event dictionaries. *)
#[warnings="-register-all"]
Inductive value :=
| VNone
| VBool (b : bool)
| VInt (z : Z)
| VStr (s : string)
| VList (l : list value)
| VObj (kv : list (string * value)).

(** An event [dict]: string keys, no duplicates; equality ignores order as
    [dict.__eq__] does. *)
Abbreviation dict := (gmap string value).

(** A reference to a dictionary object on the Python heap. *)
Abbreviation loc := nat.

(** Identity of a Python object ([id(o)]): callables and handlers are hashed
    and compared by identity. *)
Abbreviation obj := positive.

Inductive exn :=
| KeyError (key : option string)
| TypeError (msg : string)
| ValueError (msg : string)
| ModifierError
| ListenerError
| ValidationError (msg : string)
| SchemaRegistryException (msg : string)
| RuntimeError (msg : string).

(** Outcome of a Python call: a value or a raised exception. *)
Inductive res (A : Type) :=
| Return (a : A)
| Raise (e : exn).
Arguments Return {A} a.
Arguments Raise {A} e.

(** ** Callables

    A modifier is handed one dictionary object.  It may mutate that object
    in place, and then either raises, returns the object it was given, or
    returns a dictionary it has built itself.  [arg'] is the content of the
    argument object when the call ends. *)
Inductive call_result :=
| CallRaise (arg' : dict) (e : exn)
| CallReturnArg (arg' : dict)
| CallReturnNew (arg' : dict) (new : dict).

(** What [callable(o)] and [inspect.signature(o)] see of an object, and what
    calling it as [o(schema_id=..., data=...)] does.  [sig = None] stands for
    a callable of which [inspect.signature] cannot tell the signature. *)
Inductive pyobject :=
| NonCallable
| Callable (sig : option string) (call : string → dict → call_result).

(** [inspect.signature] of the two local templates [modifier_signature] and
    [listener_signature]. *)
Definition modifier_signature : string :=
  "(schema_id: str, data: dict) -> dict".
Definition listener_signature : string :=
  "(logger: EventLogger, schema_id: str, data: dict) -> None".

(** [EVENTS_METADATA_VERSION = 1] *)
Definition EVENTS_METADATA_VERSION : Z := 1.

(** ** Collaborators outside the module *)

Module EventSchema.
(** The descriptor returned by the registry: [schema.id], [schema.version]. *)
Record t := { id : string; version : value }.
End EventSchema.

(** The [SchemaRegistry] the logger holds in [self.schemas].  Only its
    interface is used by [logger.py]:
    [register] returns the descriptor or raises, and may update the registry;
    [contains] is [schema_id in self.schemas]; [schema_ids] is the property
    iterated by the fan-out loops; [validate_event] returns or raises. *)
Class SchemaRegistry (R Src : Type) := {
  register : R → Src → R * res EventSchema.t;
  get : R → string → res EventSchema.t;
  contains : R → string → bool;
  schema_ids : R → list string;
  validate_event : R → string → dict → res unit;
}.

(** [datetime]: only [isoformat()] is used. *)
Class Datetime (T : Type) := { isoformat : T → string }.

(** A scheduled listener invocation, [asyncio.create_task(listener(logger=self,
    schema_id=..., data=...))]: which listener, for which schema, on which
    dictionary object. *)
Record Task := { task_listener : obj; task_schema_id : string; task_data : loc }.

(** A callback table: schema id to set of callables. *)
Abbreviation table := (gmap string (gset obj)).

(** [self._x[key]] on a callback table. [key] is [None] where the source
    passes a [schema_id] that is [None]. *)
Definition getitem (tbl : table) (key : option string) : res (gset obj) :=
  match key with
  | Some k =>
      match tbl !! k with
      | Some s => Return s
      | None => Raise (KeyError key)
      end
  | None => Raise (KeyError None)
  end.

(** [tbl[key].add(x)] and [tbl[key].discard(x)]: the set stored under [key]
    is mutated in place. *)
Definition set_add (key : option string) (x : obj) (tbl : table) : res table :=
  match key with
  | Some k =>
      match tbl !! k with
      | Some s => Return (<[k := s ∪ {[x]}]> tbl)
      | None => Raise (KeyError key)
      end
  | None => Raise (KeyError None)
  end.

Definition set_discard (key : option string) (x : obj) (tbl : table) : res table :=
  match key with
  | Some k =>
      match tbl !! k with
      | Some s => Return (<[k := s ∖ {[x]}]> tbl)
      | None => Raise (KeyError key)
      end
  | None => Raise (KeyError None)
  end.

(** Truthiness of an optional string: [if schema_id:]. *)
Definition truthy (o : option string) : bool :=
  match o with
  | Some s => negb (String.eqb s "")
  | None => false
  end.

(** The keys the capsule starts with (lines 374-379). *)
Definition reserved_keys : list string :=
  ["__timestamp__"; "__schema__"; "__schema_version__"; "__metadata_version__"].

(** [capsule.update(data)]: keys of [data] win. *)
Definition dict_update (capsule data : dict) : dict := data ∪ capsule.

Section EventLogger.
Context {R Src datetime : Type}.
Context `{!SchemaRegistry R Src} `{!Datetime datetime}.
(** The Python objects passed as modifiers and listeners, by identity. *)
Context (object_at : obj → pyobject).

(** ** State

    The first six fields are the traits of the [EventLogger] instance.  The
    rest is what its methods touch outside the instance: the heap of
    dictionary objects, the clock read by [datetime.utcnow()], the
    [warnings] module filtered by [simplefilter("once", SchemaNotRegistered)]
    (line 40), and the sequence of capsules passed to [self._logger.info]. *)
Record State := {
  handlers : option (list obj);
  schemas : R;
  _modifiers : table;
  _modified_listeners : table;
  _unmodified_listeners : table;
  _active_listeners : list Task;
  heap : list dict;
  clock : datetime;
  onceregistry : gset string;
  warnings_shown : list string;
  logged : list dict;
}.

Definition with_schemas (r : R) (s : State) : State :=
  {| handlers := handlers s; schemas := r; _modifiers := _modifiers s;
     _modified_listeners := _modified_listeners s;
     _unmodified_listeners := _unmodified_listeners s;
     _active_listeners := _active_listeners s; heap := heap s;
     clock := clock s; onceregistry := onceregistry s;
     warnings_shown := warnings_shown s; logged := logged s |}.

Definition with_modifiers (t : table) (s : State) : State :=
  {| handlers := handlers s; schemas := schemas s; _modifiers := t;
     _modified_listeners := _modified_listeners s;
     _unmodified_listeners := _unmodified_listeners s;
     _active_listeners := _active_listeners s; heap := heap s;
     clock := clock s; onceregistry := onceregistry s;
     warnings_shown := warnings_shown s; logged := logged s |}.

Definition with_modified_listeners (t : table) (s : State) : State :=
  {| handlers := handlers s; schemas := schemas s; _modifiers := _modifiers s;
     _modified_listeners := t;
     _unmodified_listeners := _unmodified_listeners s;
     _active_listeners := _active_listeners s; heap := heap s;
     clock := clock s; onceregistry := onceregistry s;
     warnings_shown := warnings_shown s; logged := logged s |}.

Definition with_unmodified_listeners (t : table) (s : State) : State :=
  {| handlers := handlers s; schemas := schemas s; _modifiers := _modifiers s;
     _modified_listeners := _modified_listeners s;
     _unmodified_listeners := t;
     _active_listeners := _active_listeners s; heap := heap s;
     clock := clock s; onceregistry := onceregistry s;
     warnings_shown := warnings_shown s; logged := logged s |}.

Definition with_active_listeners (a : list Task) (s : State) : State :=
  {| handlers := handlers s; schemas := schemas s; _modifiers := _modifiers s;
     _modified_listeners := _modified_listeners s;
     _unmodified_listeners := _unmodified_listeners s;
     _active_listeners := a; heap := heap s;
     clock := clock s; onceregistry := onceregistry s;
     warnings_shown := warnings_shown s; logged := logged s |}.

Definition with_heap (h : list dict) (s : State) : State :=
  {| handlers := handlers s; schemas := schemas s; _modifiers := _modifiers s;
     _modified_listeners := _modified_listeners s;
     _unmodified_listeners := _unmodified_listeners s;
     _active_listeners := _active_listeners s; heap := h;
     clock := clock s; onceregistry := onceregistry s;
     warnings_shown := warnings_shown s; logged := logged s |}.

Definition with_warnings (once : gset string) (shown : list string) (s : State) : State :=
  {| handlers := handlers s; schemas := schemas s; _modifiers := _modifiers s;
     _modified_listeners := _modified_listeners s;
     _unmodified_listeners := _unmodified_listeners s;
     _active_listeners := _active_listeners s; heap := heap s;
     clock := clock s; onceregistry := once;
     warnings_shown := shown; logged := logged s |}.

Definition with_logged (l : list dict) (s : State) : State :=
  {| handlers := handlers s; schemas := schemas s; _modifiers := _modifiers s;
     _modified_listeners := _modified_listeners s;
     _unmodified_listeners := _unmodified_listeners s;
     _active_listeners := _active_listeners s; heap := heap s;
     clock := clock s; onceregistry := onceregistry s;
     warnings_shown := warnings_shown s; logged := l |}.

(** ** The state-and-exception monad *)

Definition M (A : Type) : Type := State → State * res A.

#[global] Instance M_ret : MRet M := λ A a st, (st, Return a).
#[global] Instance M_bind : MBind M := λ A B f m st,
  match m st with
  | (st', Return a) => f a st'
  | (st', Raise e) => (st', Raise e)
  end.

Definition raise {A} (e : exn) : M A := λ st, (st, Raise e).
Definition gets {A} (f : State → A) : M A := λ st, (st, Return (f st)).
Definition modify (f : State → State) : M unit := λ st, (f st, Return tt).
Definition lift {A} (r : res A) : M A := λ st, (st, r).

(** [for x in xs: body(x)] *)
Fixpoint for_each {A} (xs : list A) (body : A → M unit) : M unit :=
  match xs with
  | [] => mret tt
  | x :: xs' => body x ;; for_each xs' body
  end.

(** [for x in xs: acc = body(x, acc)] *)
Fixpoint for_fold {A B} (xs : list A) (acc : B) (body : A → B → M B) : M B :=
  match xs with
  | [] => mret acc
  | x :: xs' => acc' ← body x acc; for_fold xs' acc' body
  end.

(** ** Primitive operations *)

(** [self._x[key]] read from the state. *)
Definition subscript (tbl : State → table) (key : option string) : M (gset obj) :=
  λ st, (st, getitem (tbl st) key).

Definition update_modifiers (f : table → res table) : M unit := λ st,
  match f (_modifiers st) with
  | Return t => (with_modifiers t st, Return tt)
  | Raise e => (st, Raise e)
  end.

Definition update_modified_listeners (f : table → res table) : M unit := λ st,
  match f (_modified_listeners st) with
  | Return t => (with_modified_listeners t st, Return tt)
  | Raise e => (st, Raise e)
  end.

Definition update_unmodified_listeners (f : table → res table) : M unit := λ st,
  match f (_unmodified_listeners st) with
  | Return t => (with_unmodified_listeners t st, Return tt)
  | Raise e => (st, Raise e)
  end.

(** [callable(o)] *)
Definition callable (o : obj) : bool :=
  match object_at o with
  | NonCallable => false
  | Callable _ _ => true
  end.

(** [inspect.signature(o)] on a callable *)
Definition inspect_signature (o : obj) : M string :=
  match object_at o with
  | Callable (Some sig) _ => mret sig
  | _ => raise (ValueError "no signature found")
  end.

(** [not s] on a set *)
Definition is_empty (s : gset obj) : bool := bool_decide (s = ∅).

(** [not self.handlers]: the trait allows [None]. *)
Definition no_handlers (hs : option (list obj)) : bool :=
  match hs with
  | None | Some [] => true
  | Some (_ :: _) => false
  end.

(** Reading and writing the dictionary object at [l]; a new object gets
    the next free address. *)
Definition deref (l : loc) : M dict := gets (λ st, heap st !!! l).
Definition store (l : loc) (d : dict) : M unit :=
  modify (λ st, with_heap (<[l := d]> (heap st)) st).
Definition alloc (d : dict) : M loc := λ st,
  (with_heap (heap st ++ [d]) st, Return (length (heap st))).

(** [copy.deepcopy(data)]: a new object with the same content. *)
Definition deepcopy (data : loc) : M loc := d ← deref data; alloc d.

(** [modifier(schema_id=schema_id, data=modified_data)] *)
Definition call_modifier (modifier : obj) (schema_id : string) (data : loc) : M loc :=
  match object_at modifier with
  | NonCallable => raise (TypeError "object is not callable")
  | Callable _ call =>
      d ← deref data;
      match call schema_id d with
      | CallRaise d' e => store data d';; raise e
      | CallReturnArg d' => store data d';; mret data
      | CallReturnNew d' new => store data d';; alloc new
      end
  end.

(** [warnings.warn(text, SchemaNotRegistered)] under the ["once"] filter:
    a text is shown the first time only. *)
Definition warn (text : string) : M unit := λ st,
  if bool_decide (text ∈ onceregistry st) then (st, Return tt)
  else (with_warnings ({[text]} ∪ onceregistry st) (warnings_shown st ++ [text]) st,
        Return tt).

(** [self._logger.info(capsule)] *)
Definition logger_info (capsule : dict) : M unit :=
  modify (λ st, with_logged (logged st ++ [capsule]) st).

(** [task = asyncio.create_task(listener(logger=self, schema_id=...,
    data=...)); self._active_listeners.add(task)] *)
Definition create_task (listener : obj) (schema_id : string) (data : loc) : M unit :=
  modify (λ st, with_active_listeners
    (_active_listeners st ++
       [{| task_listener := listener; task_schema_id := schema_id; task_data := data |}])
    st).

(** ** Methods of [EventLogger] *)

(** Lines 128-138. *)
Definition register_event_schema (schema : Src) : M unit :=
  event_schema ← (λ st, let '(r, e) := register (schemas st) schema in
                        (with_schemas r st, e));
  let key := EventSchema.id event_schema in
  modify (λ st, with_modifiers (<[key := ∅]> (_modifiers st)) st);;
  modify (λ st, with_modified_listeners (<[key := ∅]> (_modified_listeners st)) st);;
  modify (λ st, with_unmodified_listeners (<[key := ∅]> (_unmodified_listeners st)) st).

(** Lines 167-212. *)
Definition add_modifier (schema_id : option string) (modifier : obj) : M unit :=
  if negb (callable modifier) then raise (TypeError "`modifier` must be a callable")
  else
    signature ← inspect_signature modifier;
    let expected_signature := modifier_signature in
    if String.eqb signature expected_signature then
      if truthy schema_id then
        update_modifiers (set_add schema_id modifier)
      else
        ids ← gets (λ st, elements (dom (_modifiers st)));
        for_each ids (λ id,
          if bool_decide (schema_id = None) || bool_decide (Some id = schema_id)
          then update_modifiers (set_add (Some id) modifier)
          else mret tt)
    else raise ModifierError.

(** Lines 214-235. *)
Definition remove_modifier (schema_id : option string) (modifier : obj) : M unit :=
  if truthy schema_id then
    update_modifiers (set_discard schema_id modifier)
  else
    ids ← gets (λ st, schema_ids (schemas st));
    for_each ids (λ schema_id,
      update_modifiers (set_discard (Some schema_id) modifier);;
      update_modifiers (set_discard (Some schema_id) modifier)).

(** Lines 237-289.  In the loop the unmodified branch subscripts with the
    parameter [schema_id], as line 281 does, not with the loop variable. *)
Definition add_listener (modified : bool) (schema_id : option string) (listener : obj)
  : M unit :=
  if negb (callable listener) then raise (TypeError "`listener` must be a callable")
  else
    signature ← inspect_signature listener;
    let expected_signature := listener_signature in
    if String.eqb signature expected_signature then
      let fan_out : M unit :=
        ids ← gets (λ st, schema_ids (schemas st));
        for_each ids (λ id,
          if bool_decide (schema_id = None) || bool_decide (Some id = schema_id)
          then
            if modified
            then update_modified_listeners (set_add (Some id) listener)
            else update_unmodified_listeners (set_add schema_id listener)
          else mret tt) in
      if truthy schema_id then
        if modified then
          update_modified_listeners (set_add schema_id listener)
        else
          (update_unmodified_listeners (set_add schema_id listener);;
           fan_out)
      else fan_out
    else raise ListenerError.

(** Lines 291-316. *)
Definition remove_listener (schema_id : option string) (listener : obj) : M unit :=
  if truthy schema_id then
    update_modified_listeners (set_discard schema_id listener);;
    update_unmodified_listeners (set_discard schema_id listener)
  else
    ids ← gets (λ st, schema_ids (schemas st));
    for_each ids (λ schema_id,
      update_modified_listeners (set_discard (Some schema_id) listener);;
      update_unmodified_listeners (set_discard (Some schema_id) listener)).

(** The text of the [SchemaNotRegistered] warning, lines 348-350. *)
Definition not_registered_text (schema_id : string) : string :=
  schema_id +:+ " has not been registered yet. If " +:+
  "this was not intentional, please register the schema using the " +:+
  "`register_event_schema` method.".

(** The guard of lines 337-341; [and] evaluates left to right and stops at
    the first false operand. *)
Definition nothing_listening (schema_id : string) : M bool :=
  hs ← gets handlers;
  if no_handlers hs then
    ml ← subscript _modified_listeners (Some schema_id);
    if is_empty ml then
      ul ← subscript _unmodified_listeners (Some schema_id);
      mret (is_empty ul)
    else mret false
  else mret false.

(** Lines 357-360: the modifiers run one after the other on the copy. *)
Definition apply_modifiers (schema : EventSchema.t) (schema_id : string) (data : loc)
  : M loc :=
  modified_data ← deepcopy data;
  modifiers ← subscript _modifiers (Some (EventSchema.id schema));
  for_fold (elements modifiers) modified_data
    (λ modifier modified_data, call_modifier modifier schema_id modified_data).

(** Lines 374-380. *)
Definition make_capsule (schema_id : string) (schema : EventSchema.t)
    (timestamp : datetime) (modified_data : dict) : dict :=
  let capsule : dict :=
    {[ "__timestamp__" := VStr (isoformat timestamp +:+ "Z");
       "__schema__" := VStr schema_id;
       "__schema_version__" := EventSchema.version schema;
       "__metadata_version__" := VInt EVENTS_METADATA_VERSION ]} in
  dict_update capsule modified_data.

(** Lines 362-367: the caller's data is validated when some listener of
    unmodified events is registered, the modified data always. *)
Definition validate (schema : EventSchema.t) (schema_id : string)
    (data modified_data : loc) : M unit :=
  registry ← gets schemas;
  ul ← subscript _unmodified_listeners (Some (EventSchema.id schema));
  (if is_empty ul then mret tt
   else d ← deref data; lift (validate_event registry schema_id d));;
  md ← deref modified_data;
  lift (validate_event registry schema_id md).

(** Lines 369-428: build the capsule, hand it to the logger, schedule the
    listeners, return the capsule. *)
Definition record_and_dispatch (schema : EventSchema.t) (schema_id : string)
    (data modified_data : loc) (timestamp_override : option datetime) : M dict :=
  timestamp ← match timestamp_override with
              | None => gets clock
              | Some t => mret t
              end;
  md ← deref modified_data;
  let capsule := make_capsule schema_id schema timestamp md in
  logger_info capsule;;
  ml ← subscript _modified_listeners (Some schema_id);
  for_each (elements ml) (λ listener,
    create_task listener schema_id modified_data);;
  ul ← subscript _unmodified_listeners (Some schema_id);
  for_each (elements ul) (λ listener,
    create_task listener schema_id data);;
  mret capsule.

(** Lines 318-428. *)
Definition emit (schema_id : string) (data : loc) (timestamp_override : option datetime)
  : M (option dict) :=
  skip ← nothing_listening schema_id;
  if skip : bool then mret None
  else
    registry ← gets schemas;
    if negb (contains registry schema_id) then
      warn (not_registered_text schema_id);;
      mret None
    else
      schema ← lift (get registry schema_id);
      modified_data ← apply_modifiers schema schema_id data;
      validate schema schema_id data modified_data;;
      capsule ← record_and_dispatch schema schema_id data modified_data
                  timestamp_override;
      mret (Some capsule).

(** ** Vocabulary of the statements *)

(** The three callback tables have the same schema ids as keys. *)
Definition tables_aligned (st : State) : Prop :=
  dom (_modified_listeners st) = dom (_modifiers st) ∧
  dom (_unmodified_listeners st) = dom (_modifiers st).

(** [st'] has the logger of [st]: same handlers, registry and tables. *)
Definition same_logger (st st' : State) : Prop :=
  handlers st' = handlers st ∧ schemas st' = schemas st ∧
  _modifiers st' = _modifiers st ∧
  _modified_listeners st' = _modified_listeners st ∧
  _unmodified_listeners st' = _unmodified_listeners st.

(** [st'] is [st] with another heap. *)
Definition only_heap (st st' : State) : Prop := with_heap (heap st') st = st'.

(** The tasks scheduled for the listeners in [s], in iteration order. *)
Definition tasks_for (s : gset obj) (schema_id : string) (data : loc) : list Task :=
  (λ listener, {| task_listener := listener; task_schema_id := schema_id;
                  task_data := data |}) <$> elements s.

End EventLogger.

(** ** A concrete registry and clock, for running the model *)

(** Modelled from the spec: the [SchemaRegistry] of [schema_registry.py] is
    not part of [logger.py].  This instance keeps the registered schemas in
    registration order, files each under its own id, rejects a second
    registration of an id, and validates an event with the validator of the
    schema.  A schema source is an already parsed schema. *)
Module ListRegistry.
Record schema := {
  descriptor : EventSchema.t;
  validator : dict → bool;
}.

Definition t := list schema.

Definition find_schema (r : t) (schema_id : string) : option schema :=
  List.find (λ s, String.eqb (EventSchema.id (descriptor s)) schema_id) r.

#[export] Instance registry : SchemaRegistry t schema := {|
  register r src :=
    match find_schema r (EventSchema.id (descriptor src)) with
    | Some _ => (r, Raise (SchemaRegistryException "already registered"))
    | None => (r ++ [src], Return (descriptor src))
    end;
  get r schema_id :=
    match find_schema r schema_id with
    | Some s => Return (descriptor s)
    | None => Raise (KeyError (Some schema_id))
    end;
  contains r schema_id :=
    match find_schema r schema_id with Some _ => true | None => false end;
  schema_ids r := List.map (λ s, EventSchema.id (descriptor s)) r;
  validate_event r schema_id data :=
    match find_schema r schema_id with
    | Some s =>
        if validator s data then Return tt
        else Raise (ValidationError "event does not match the schema")
    | None => Raise (KeyError (Some schema_id))
    end;
|}.
End ListRegistry.

(** A [datetime] given by the text [isoformat()] prints for it. *)
#[export] Instance text_datetime : Datetime string := {| isoformat := λ t, t |}.


(** ** A small logger to run the methods on *)

Module Example.
Import ListRegistry.

(** A schema [S], version 1, that requires an integer field [x]. *)
Definition schema_S : schema :=
  {| descriptor := {| EventSchema.id := "S"; EventSchema.version := VInt 1 |};
     validator := λ d, match d !! "x" with Some (VInt _) => true | _ => false end |}.

(** Object 1 is a modifier that sets [x] to 1 in place and returns the
    dictionary it was given; object 2 is a listener; object 3 has the
    signature of neither; anything else is not callable. *)
Definition objects (o : obj) : pyobject :=
  match o with
  | 1%positive =>
      Callable (Some modifier_signature) (λ _ d, CallReturnArg (<["x" := VInt 1]> d))
  | 2%positive =>
      Callable (Some listener_signature) (λ _ d, CallReturnArg d)
  | 3%positive =>
      Callable (Some "(data)") (λ _ d, CallReturnArg d)
  | _ => NonCallable
  end.

(** The dictionaries of the caller: [{"x": "bad"}] at 0, [{"x": 5}] at 1
    and [{"x": 5, "__schema__": "evil"}] at 2. *)
Definition caller_heap : list dict :=
  [ {[ "x" := VStr "bad" ]};
    {[ "x" := VInt 5 ]};
    {[ "x" := VInt 5; "__schema__" := VStr "evil" ]} ].

(** A logger just constructed, without handlers. *)
Definition fresh : State (R:=t) (datetime:=string) :=
  {| handlers := Some []; schemas := []; _modifiers := ∅;
     _modified_listeners := ∅; _unmodified_listeners := ∅;
     _active_listeners := []; heap := caller_heap;
     clock := "2022-08-11T10:15:00"; onceregistry := ∅;
     warnings_shown := []; logged := [] |}.

(** The same with one handler, object 7. *)
Definition fresh_with_handler : State (R:=t) (datetime:=string) :=
  {| handlers := Some [7%positive]; schemas := []; _modifiers := ∅;
     _modified_listeners := ∅; _unmodified_listeners := ∅;
     _active_listeners := []; heap := caller_heap;
     clock := "2022-08-11T10:15:00"; onceregistry := ∅;
     warnings_shown := []; logged := [] |}.

(** After [register_event_schema(S)]. *)
Definition registered : State := (register_event_schema schema_S fresh).1.
Definition registered_with_handler : State :=
  (register_event_schema schema_S fresh_with_handler).1.

(** After [add_modifier(schema_id="S", modifier=<object 1>)]. *)
Definition with_fixer : State :=
  (add_modifier objects (Some "S") 1%positive registered).1.
Definition with_fixer_and_handler : State :=
  (add_modifier objects (Some "S") 1%positive registered_with_handler).1.

(** And after [add_listener(modified=False, schema_id="S",
    listener=<object 2>)]. *)
Definition with_raw_listener : State :=
  (add_listener objects false (Some "S") 2%positive with_fixer).1.

(** [with_fixer] once the logger has been given an empty registry
    ([logger.schemas = SchemaRegistry()]; [schemas] is an assignable trait):
    the tables still have their entry for [S]. *)
Definition unregistered_behind : State := with_schemas [] with_fixer.

(** The message of the registry's validation error. *)
Definition invalid : exn := ValidationError "event does not match the schema".

(** [with_fixer_and_handler] and [with_raw_listener] after the modifier
    chain has run on a copy of the dictionary at 0, and
    [registered_with_handler] after the copy of the dictionaries at 0, 1 and
    2: the copy is the object at 3. *)
Definition fixed : State :=
  (apply_modifiers objects (descriptor schema_S) "S" 0 with_fixer_and_handler).1.
Definition fixed_raw : State :=
  (apply_modifiers objects (descriptor schema_S) "S" 0 with_raw_listener).1.
Definition copied (data : loc) : State :=
  (apply_modifiers objects (descriptor schema_S) "S" data registered_with_handler).1.

(** The capsule of the dictionary at [data], emitted on
    [registered_with_handler]. *)
Definition capsule_of (data : loc) : dict :=
  make_capsule "S" (descriptor schema_S) "2022-08-11T10:15:00"
    (heap (copied data) !!! 3).
End Example.

(** ** Handlers

    [register_handler], [remove_handler] and the handler loop of [__init__]
    act on the [handlers] trait and on two things outside the traits: the
    [logging.Logger] kept in [self._logger], and the formatter each handler
    object carries. *)

(** The [logging.Logger] behind [self._logger]; [logger.py] calls
    [addHandler] and [removeHandler] on it. *)
Class PyLogger (L : Type) := {
  addHandler : L → obj → L;
  removeHandler : L → obj → L;
}.

(** [l.remove(x)] on a list that holds [x]: the first occurrence goes. *)
Fixpoint list_remove (x : obj) (l : list obj) : list obj :=
  match l with
  | [] => []
  | y :: l' => if decide (x = y) then l' else y :: list_remove x l'
  end.

(** The local function [_skip_message] of [register_handler] (lines
    146-153): [del record["message"]], then [json.dumps(record, **kwargs)],
    the latter a parameter.  The record is changed in place: the result
    holds it as the call leaves it. *)
Definition _skip_message (dumps : dict → string) (record : dict) : dict * res string :=
  match record !! "message" with
  | Some _ => (delete "message" record, Return (dumps (delete "message" record)))
  | None => (record, Raise (KeyError (Some "message")))
  end.

Section Handlers.
Context {R datetime L : Type}.
Context `{!PyLogger L}.

Definition with_handlers (hs : option (list obj)) (s : State (R:=R) (datetime:=datetime))
  : State :=
  {| handlers := hs; schemas := schemas s; _modifiers := _modifiers s;
     _modified_listeners := _modified_listeners s;
     _unmodified_listeners := _unmodified_listeners s;
     _active_listeners := _active_listeners s; heap := heap s;
     clock := clock s; onceregistry := onceregistry s;
     warnings_shown := warnings_shown s; logged := logged s |}.

(** The logger together with its [logging.Logger] and with the set of
    handler objects whose formatter is a [JsonFormatter] built by
    [register_handler]. *)
Record Logging := {
  self : State (R:=R) (datetime:=datetime);
  _logger : L;
  json_formatted : gset obj;
}.

(** Lines 140-159.  [handler not in self.handlers] raises [TypeError] when
    the trait is [None]; by then the handler has its formatter and is attached
    to [self._logger]. *)
Definition register_handler (handler : obj) (x : Logging) : Logging * res unit :=
  let formatted := json_formatted x ∪ {[handler]} in
  let logger := addHandler (_logger x) handler in
  match handlers (self x) with
  | None =>
      ({| self := self x; _logger := logger; json_formatted := formatted |},
       Raise (TypeError "argument of type 'NoneType' is not iterable"))
  | Some hs =>
      if bool_decide (handler ∈ hs) then
        ({| self := self x; _logger := logger; json_formatted := formatted |}, Return tt)
      else
        ({| self := with_handlers (Some (hs ++ [handler])) (self x);
            _logger := logger; json_formatted := formatted |}, Return tt)
  end.

(** Lines 161-165. *)
Definition remove_handler (handler : obj) (x : Logging) : Logging * res unit :=
  let logger := removeHandler (_logger x) handler in
  match handlers (self x) with
  | None =>
      ({| self := self x; _logger := logger; json_formatted := json_formatted x |},
       Raise (TypeError "argument of type 'NoneType' is not iterable"))
  | Some hs =>
      if bool_decide (handler ∈ hs) then
        ({| self := with_handlers (Some (list_remove handler hs)) (self x);
            _logger := logger; json_formatted := json_formatted x |}, Return tt)
      else
        ({| self := self x; _logger := logger; json_formatted := json_formatted x |},
         Return tt)
  end.

(** [for handler in handlers: self.register_handler(handler)] *)
Fixpoint register_handlers (hs : list obj) (x : Logging) : Logging * res unit :=
  match hs with
  | [] => (x, Return tt)
  | handler :: hs' =>
      match register_handler handler x with
      | (x', Return _) => register_handlers hs' x'
      | (x', Raise e) => (x', Raise e)
      end
  end.

(** Lines 98-109 of [__init__], after the traits are set: [new_logger] is
    what [logging.getLogger(log_name)] returned, already told not to propagate
    and to log from [INFO] up.  The loop runs over the handlers the trait held
    when it started: no turn of it changes that list, every handler it
    registers being in the list already. *)
Definition __init__ (new_logger : L) (x : Logging) : Logging * res unit :=
  let x0 := {| self := self x; _logger := new_logger;
               json_formatted := json_formatted x |} in
  match handlers (self x) with
  | Some (h :: hs) => register_handlers (h :: hs) x0
  | _ => (x0, Return tt)
  end.

(** Every handler of the trait carries the logger's JSON formatter. *)
Definition handlers_formatted (x : Logging) : Prop :=
  ∀ hs h, handlers (self x) = Some hs → h ∈ hs → h ∈ json_formatted x.

End Handlers.

(** ** More loggers to run the methods on *)

(** A [logging.Logger] given by the list of its handlers: a handler is
    attached once, and detaching one that is not attached does nothing. *)
#[export] Instance list_logger : PyLogger (list obj) := {|
  addHandler l h := if bool_decide (h ∈ l) then l else l ++ [h];
  removeHandler l h := list_remove h l;
|}.

Module Example2.
Import ListRegistry Example.

(** The objects of [Example.objects], and two more: object 4 is a modifier
    that raises, object 5 a second listener. *)
Definition objects2 (o : obj) : pyobject :=
  match o with
  | 4%positive =>
      Callable (Some modifier_signature) (λ _ d, CallRaise d (RuntimeError "boom"))
  | 5%positive =>
      Callable (Some listener_signature) (λ _ d, CallReturnArg d)
  | _ => objects o
  end.

(** A logger whose registry was given [S] directly: no table has an entry
    for it. *)
Definition direct : State := with_schemas [schema_S] fresh.
Definition direct_with_handler : State := with_schemas [schema_S] fresh_with_handler.

(** [with_fixer_and_handler] with the listener 2 for modified and the
    listener 5 for unmodified events of [S]. *)
Definition with_listeners : State :=
  (add_listener objects2 false (Some "S") 5%positive
     (add_listener objects2 true (Some "S") 2%positive with_fixer_and_handler).1).1.

(** [with_listeners] after the modifier chain has run on a copy of the
    dictionary at 1. *)
Definition with_listeners_fixed : State :=
  (apply_modifiers objects2 (descriptor schema_S) "S" 1 with_listeners).1.

(** [registered_with_handler] with the raising modifier 4 for [S], and the
    same after the chain has raised on the copy of the dictionary at 1. *)
Definition with_failing_modifier : State :=
  (add_modifier objects2 (Some "S") 4%positive registered_with_handler).1.
Definition failed : State :=
  (apply_modifiers objects2 (descriptor schema_S) "S" 1 with_failing_modifier).1.

(** The logger [fresh_with_handler] before [__init__] has attached its
    handler 7, and one with the handlers 7 and 8. *)
Definition unattached : Logging (L:=list obj) :=
  {| self := fresh_with_handler; _logger := []; json_formatted := ∅ |}.
Definition two_handlers : Logging (L:=list obj) :=
  {| self := with_handlers (Some [7%positive; 8%positive]) fresh;
     _logger := [7%positive; 8%positive];
     json_formatted := {[7%positive; 8%positive]} |}.
End Example2.

(** * Properties *)

Section Properties.
Context {R Src datetime : Type}.
Context `{!SchemaRegistry R Src} `{!Datetime datetime}.
Context (object_at : obj → pyobject).

Implicit Types (st : State (R:=R) (datetime:=datetime)).
Implicit Types (schema_id : string) (data l : loc) (schema : EventSchema.t).
Implicit Types (modifier listener : obj) (modifiers : list obj).
Implicit Types (target : option string).

#[local] Set Warnings "-clear-no-such-hyp".

(** Unfolds the monad so that a method applied to a state reduces. *)
Ltac run :=
  unfold mbind, M_bind, mret, M_ret, gets, modify, lift, raise, subscript,
    deref, store, alloc; cbn.

Lemma is_empty_true (s : gset obj) : is_empty s = true ↔ s = ∅.
Proof. unfold is_empty. apply bool_decide_eq_true. Qed.

Lemma is_empty_false (s : gset obj) : is_empty s = false ↔ s ≠ ∅.
Proof. unfold is_empty. apply bool_decide_eq_false. Qed.

Lemma is_empty_empty : is_empty ∅ = true.
Proof. by apply is_empty_true. Qed.

(** ** The guard of [emit] *)

Lemma nothing_listening_true st schema_id :
  no_handlers (handlers st) = true →
  _modified_listeners st !! schema_id = Some ∅ →
  _unmodified_listeners st !! schema_id = Some ∅ →
  nothing_listening schema_id st = (st, Return true).
Proof.
  intros Hh Hm Hu. unfold nothing_listening. run.
  rewrite Hh. cbn. rewrite Hm. cbn. rewrite is_empty_empty.
  rewrite Hu. cbn. by rewrite is_empty_empty.
Qed.

Lemma nothing_listening_handlers st schema_id :
  no_handlers (handlers st) = false →
  nothing_listening schema_id st = (st, Return false).
Proof. intros Hh. unfold nothing_listening. run. by rewrite Hh. Qed.

Lemma nothing_listening_missing st schema_id :
  no_handlers (handlers st) = true →
  _modified_listeners st !! schema_id = None →
  nothing_listening schema_id st = (st, Raise (KeyError (Some schema_id))).
Proof.
  intros Hh Hm. unfold nothing_listening. run.
  rewrite Hh. cbn. by rewrite Hm.
Qed.

(** The guard never changes the state. *)
Lemma nothing_listening_state st schema_id :
  (nothing_listening schema_id st).1 = st.
Proof.
  unfold nothing_listening. run.
  destruct (no_handlers _); [|done]. cbn.
  destruct (_modified_listeners st !! schema_id) as [ml|]; [|done]. cbn.
  destruct (is_empty ml); [|done].
  by destruct (_unmodified_listeners st !! schema_id).
Qed.

(** The fast exit.  With no handler and with both listener sets of
    [schema_id] present and empty, [emit] returns [None] at once: the state is
    left as it was, so no copy was made, no modifier was called, nothing was
    handed to the logger and no task was scheduled; and the registry is not
    consulted, whatever its [contains], [get] and [validate_event] do. *)
Lemma emit_fast_exit st schema_id data timestamp_override :
  no_handlers (handlers st) = true →
  _modified_listeners st !! schema_id = Some ∅ →
  _unmodified_listeners st !! schema_id = Some ∅ →
  emit object_at schema_id data timestamp_override st = (st, Return None).
Proof.
  intros Hh Hm Hu. unfold emit.
  unfold mbind at 1, M_bind at 1.
  by rewrite nothing_listening_true.
Qed.

(** ** What the stages of [emit] leave alone *)

Lemma only_heap_refl st : only_heap st st.
Proof. unfold only_heap. by destruct st. Qed.

Lemma only_heap_trans st1 st2 st3 :
  only_heap st1 st2 → only_heap st2 st3 → only_heap st1 st3.
Proof. unfold only_heap. intros <- <-. done. Qed.

Lemma only_heap_with_heap st h : only_heap st (with_heap h st).
Proof. done. Qed.

Lemma only_heap_fields st st' :
  only_heap st st' →
  handlers st' = handlers st ∧ schemas st' = schemas st ∧
  _modifiers st' = _modifiers st ∧
  _modified_listeners st' = _modified_listeners st ∧
  _unmodified_listeners st' = _unmodified_listeners st ∧
  _active_listeners st' = _active_listeners st ∧
  clock st' = clock st ∧ onceregistry st' = onceregistry st ∧
  warnings_shown st' = warnings_shown st ∧ logged st' = logged st.
Proof. unfold only_heap. by intros <-. Qed.

(** A modifier called on an object allocated after [h0] leaves [h0] as it
    is, and what it returns was allocated after [h0] as well. *)
Lemma call_modifier_frame (h0 : list dict) modifier schema_id l st st' r :
  h0 `prefix_of` heap st →
  length h0 ≤ l →
  call_modifier object_at modifier schema_id l st = (st', r) →
  only_heap st st' ∧ h0 `prefix_of` heap st' ∧
  ∀ l', r = Return l' → length h0 ≤ l'.
Proof.
  intros [k Hk] Hl. unfold call_modifier.
  destruct (object_at modifier) as [|sig call].
  { run. intros [= <- <-]. split; [apply only_heap_refl|].
    split; [by exists k | done]. }
  run.
  assert (Hins : ∀ d, h0 `prefix_of` <[l:=d]> (heap st)).
  { intros d. rewrite Hk, insert_app_r_alt by done. by eexists. }
  destruct (call schema_id (heap st !!! l)) as [d' e|d'|d' new]; cbn.
  - intros [= <- <-]. split; [apply only_heap_with_heap|]. split; [apply Hins|done].
  - intros [= <- <-]. split; [apply only_heap_with_heap|]. split; [apply Hins|].
    by intros ? [= <-].
  - intros [= <- <-]. split; [done|]. split.
    + destruct (Hins d') as [k' ->]. rewrite <-(assoc_L (++)). by eexists.
    + intros ? [= <-]. rewrite length_insert, Hk, length_app. lia.
Qed.

Lemma for_fold_call_modifier_frame (h0 : list dict) schema_id modifiers :
  ∀ l st st' r,
    h0 `prefix_of` heap st →
    length h0 ≤ l →
    for_fold modifiers l
      (λ modifier modified_data,
         call_modifier object_at modifier schema_id modified_data) st = (st', r) →
    only_heap st st' ∧ h0 `prefix_of` heap st' ∧
    ∀ l', r = Return l' → length h0 ≤ l'.
Proof.
  induction modifiers as [|m ms IH]; intros l st st' r Hpre Hl; cbn.
  - run. intros [= <- <-]. split; [apply only_heap_refl|]. split; [done|].
    by intros ? [= <-].
  - unfold mbind at 1, M_bind at 1.
    destruct (call_modifier object_at m schema_id l st) as [st1 [l1|e]] eqn:Hcall;
      destruct (call_modifier_frame h0 _ _ _ _ _ _ Hpre Hl Hcall) as (Ho & Hp & Hr).
    + intros Hrest. destruct (IH l1 st1 st' r Hp (Hr _ eq_refl) Hrest) as (Ho' & Hp' & Hr').
      split; [by eapply only_heap_trans|]. done.
    + intros [= <- <-]. done.
Qed.

(** The modifier chain touches the heap only, and there only objects that
    did not exist when [emit] was called; the object it ends with is one of
    them. *)
Lemma apply_modifiers_frame schema schema_id data st st' r :
  apply_modifiers object_at schema schema_id data st = (st', r) →
  only_heap st st' ∧ heap st `prefix_of` heap st' ∧
  ∀ l', r = Return l' → length (heap st) ≤ l'.
Proof.
  unfold apply_modifiers, deepcopy. run.
  destruct (_modifiers st !! EventSchema.id schema) as [ms|]; cbn.
  - intros Hfold.
    apply (for_fold_call_modifier_frame (heap st)) in Hfold as (Ho & Hp & Hr); cbn.
    + split; [|done]. revert Ho. unfold only_heap. by destruct st.
    + by eexists.
    + done.
  - intros [= <- <-]. split; [done|]. split; [by eexists|done].
Qed.

(** A modifier does change the object it is handed: were it given the
    caller's object, the caller would see the change. *)
Lemma call_modifier_mutates modifier sig call schema_id l st d' :
  object_at modifier = Callable sig call →
  call schema_id (heap st !!! l) = CallReturnArg d' →
  l < length (heap st) →
  call_modifier object_at modifier schema_id l st
  = (with_heap (<[l := d']> (heap st)) st, Return l) ∧
  <[l := d']> (heap st) !! l = Some d'.
Proof.
  intros Ho Hcall Hl. unfold call_modifier. rewrite Ho. run. rewrite Hcall. cbn.
  split; [done|]. by apply list_lookup_insert_eq.
Qed.

(** Validation changes nothing. *)
Lemma validate_state schema schema_id data modified_data st :
  (validate schema schema_id data modified_data st).1 = st.
Proof.
  unfold validate. run.
  destruct (_unmodified_listeners st !! EventSchema.id schema) as [ul|]; [|done]. cbn.
  destruct (is_empty ul); cbn.
  - by destruct (validate_event (schemas st) schema_id (heap st !!! modified_data)).
  - destruct (validate_event (schemas st) schema_id (heap st !!! data)); [|done].
    by destruct (validate_event (schemas st) schema_id (heap st !!! modified_data)).
Qed.

Lemma for_each_create_task schema_id data (listeners : list obj) : ∀ st,
  for_each listeners (λ listener, create_task listener schema_id data) st =
  (with_active_listeners
     (_active_listeners st ++
        ((λ listener, {| task_listener := listener; task_schema_id := schema_id;
                         task_data := data |}) <$> listeners)) st,
   Return tt).
Proof.
  induction listeners as [|x xs IH]; intros st; cbn.
  - run. rewrite app_nil_r. by destruct st.
  - unfold mbind at 1, M_bind at 1. unfold create_task at 1, modify.
    rewrite IH. cbn. by rewrite <-(assoc_L (++)).
Qed.

(** Recording and dispatching, when both listener sets of [schema_id]
    exist: one capsule goes to the logger, then one task per listener of
    modified events on the modified object, then one per listener of
    unmodified events on the caller's object. *)
Lemma record_and_dispatch_ok schema schema_id data modified_data timestamp_override
    st ml ul :
  _modified_listeners st !! schema_id = Some ml →
  _unmodified_listeners st !! schema_id = Some ul →
  let capsule :=
    make_capsule schema_id schema (default (clock st) timestamp_override)
      (heap st !!! modified_data) in
  record_and_dispatch schema schema_id data modified_data timestamp_override st =
  (with_active_listeners
     (_active_listeners st ++ tasks_for ml schema_id modified_data
        ++ tasks_for ul schema_id data)
     (with_logged (logged st ++ [capsule]) st),
   Return capsule).
Proof.
  intros Hm Hu capsule. unfold record_and_dispatch.
  unfold mbind at 1, M_bind at 1.
  assert (Hts : (match timestamp_override with
                 | Some t => mret t
                 | None => gets clock
                 end : M datetime) st
                = (st, Return (default (clock st) timestamp_override))).
  { by destruct timestamp_override. }
  rewrite Hts. run. unfold logger_info, modify. cbn. rewrite Hm. cbn.
  rewrite for_each_create_task. cbn. rewrite Hu. cbn.
  rewrite for_each_create_task. cbn.
  unfold tasks_for. by rewrite <-(assoc_L (++)).
Qed.

(** Recording and dispatching never touch the heap. *)
Lemma record_and_dispatch_heap schema schema_id data modified_data timestamp_override st :
  heap (record_and_dispatch schema schema_id data modified_data timestamp_override st).1
  = heap st.
Proof.
  unfold record_and_dispatch.
  unfold mbind at 1, M_bind at 1.
  assert (Hts : (match timestamp_override with
                 | Some t => mret t
                 | None => gets clock
                 end : M datetime) st
                = (st, Return (default (clock st) timestamp_override))).
  { by destruct timestamp_override. }
  rewrite Hts. run. unfold logger_info, modify. cbn.
  destruct (_modified_listeners st !! schema_id) as [ml|]; [|done]. cbn.
  rewrite for_each_create_task. cbn.
  destruct (_unmodified_listeners st !! schema_id) as [ul|]; [|done]. cbn.
  by rewrite for_each_create_task.
Qed.

Lemma warn_heap text st : heap (warn text st).1 = heap st.
Proof. unfold warn. by destruct (bool_decide _). Qed.

(** ** The caller's dictionary *)

(** Every object that existed when [emit] was called has the same content
    when [emit] ends, whether it returns or raises. *)
Lemma emit_heap_prefix st schema_id data timestamp_override :
  heap st `prefix_of` heap (emit object_at schema_id data timestamp_override st).1.
Proof.
  unfold emit. unfold mbind at 1, M_bind at 1.
  pose proof (nothing_listening_state st schema_id) as Hg.
  destruct (nothing_listening schema_id st) as [st0 [[|]|e]]; cbn in Hg; subst st0;
    [done| |done].
  run. destruct (contains (schemas st) schema_id); cbn.
  - destruct (get (schemas st) schema_id) as [schema|e]; [|done].
    destruct (apply_modifiers object_at schema schema_id data st) as [st1 [l|e]] eqn:Hm;
      apply apply_modifiers_frame in Hm as (_ & Hp & _); [|done].
    pose proof (validate_state schema schema_id data l st1) as Hv.
    destruct (validate schema schema_id data l st1) as [st2 [[]|e]]; cbn in Hv; subst st2;
      [|done].
    pose proof (record_and_dispatch_heap schema schema_id data l timestamp_override st1)
      as Hr.
    destruct (record_and_dispatch schema schema_id data l timestamp_override st1)
      as [st3 [c|e]]; cbn in Hr |- *; by rewrite Hr.
  - pose proof (warn_heap (not_registered_text schema_id) st) as Hw.
    destruct (warn (not_registered_text schema_id) st) as [st1 [[]|e]]; cbn in Hw |- *;
      by rewrite Hw.
Qed.

(** C7. [emit] never mutates the dictionary the caller passes: whatever
    the schema, the registered modifiers and the outcome (a capsule, [None]
    or an exception), the caller's object holds after the call what it held
    before.  The modifiers only ever see the copy made by [deepcopy], or an
    object returned by an earlier modifier. *)
Theorem emit_keeps_caller_data st schema_id data timestamp_override :
  data < length (heap st) →
  heap (emit object_at schema_id data timestamp_override st).1 !! data
  = heap st !! data.
Proof.
  intros Hdata. symmetry. apply prefix_lookup_lt; [done|]. apply emit_heap_prefix.
Qed.

(** ** The path through [emit] *)

Lemma nothing_listening_result st schema_id :
  ∃ r, nothing_listening schema_id st = (st, r).
Proof.
  pose proof (nothing_listening_state st schema_id) as Hg.
  destruct (nothing_listening schema_id st) as [st0 r]; cbn in Hg; subst. by eexists.
Qed.

(** What validation computes, once the set of listeners of unmodified
    events of the schema is known. *)
Lemma validate_spec schema schema_id data modified_data st ul :
  _unmodified_listeners st !! EventSchema.id schema = Some ul →
  validate schema schema_id data modified_data st =
  (st,
   if is_empty ul then validate_event (schemas st) schema_id (heap st !!! modified_data)
   else
     match validate_event (schemas st) schema_id (heap st !!! data) with
     | Return _ => validate_event (schemas st) schema_id (heap st !!! modified_data)
     | Raise e => Raise e
     end).
Proof.
  intros Hu. unfold validate. run. rewrite Hu. cbn.
  destruct (is_empty ul); cbn.
  - by destruct (validate_event (schemas st) schema_id (heap st !!! modified_data)).
  - destruct (validate_event (schemas st) schema_id (heap st !!! data)); [|done].
    by destruct (validate_event (schemas st) schema_id (heap st !!! modified_data)).
Qed.

(** Validation returns only if the modified data is valid. *)
Lemma validate_returns schema schema_id data modified_data st st' :
  validate schema schema_id data modified_data st = (st', Return tt) →
  st' = st ∧
  validate_event (schemas st) schema_id (heap st !!! modified_data) = Return tt.
Proof.
  unfold validate. run.
  destruct (_unmodified_listeners st !! EventSchema.id schema) as [ul|]; [|done]. cbn.
  destruct (is_empty ul); cbn.
  - destruct (validate_event (schemas st) schema_id (heap st !!! modified_data))
      as [[]|]; by intros [= <-].
  - destruct (validate_event (schemas st) schema_id (heap st !!! data)); [|done].
    destruct (validate_event (schemas st) schema_id (heap st !!! modified_data))
      as [[]|]; by intros [= <-].
Qed.

(** [emit] past the guard and the registration check is the three stages
    in sequence. *)
Lemma emit_registered st schema_id data timestamp_override schema :
  nothing_listening schema_id st = (st, Return false) →
  contains (schemas st) schema_id = true →
  get (schemas st) schema_id = Return schema →
  emit object_at schema_id data timestamp_override st =
  match apply_modifiers object_at schema schema_id data st with
  | (st1, Return modified_data) =>
      match validate schema schema_id data modified_data st1 with
      | (st2, Return _) =>
          match record_and_dispatch schema schema_id data modified_data
                  timestamp_override st2 with
          | (st3, Return capsule) => (st3, Return (Some capsule))
          | (st3, Raise e) => (st3, Raise e)
          end
      | (st2, Raise e) => (st2, Raise e)
      end
  | (st1, Raise e) => (st1, Raise e)
  end.
Proof.
  intros Hg Hc Hget. unfold emit. unfold mbind at 1, M_bind at 1. rewrite Hg.
  run. rewrite Hc, Hget. cbn.
  destruct (apply_modifiers object_at schema schema_id data st) as [st1 [l|e]]; [|done].
  destruct (validate schema schema_id data l st1) as [st2 [[]|e]]; [|done].
  by destruct (record_and_dispatch schema schema_id data l timestamp_override st2)
    as [st3 [c|e]].
Qed.

(** A capsule is returned only at the end of the whole pipeline: the
    schema was found, the modifiers returned, the modified data passed
    validation, and that capsule was handed to the logger. *)
Lemma emit_returns_capsule st schema_id data timestamp_override st' capsule :
  emit object_at schema_id data timestamp_override st = (st', Return (Some capsule)) →
  ∃ schema st1 modified_data,
    contains (schemas st) schema_id = true ∧
    get (schemas st) schema_id = Return schema ∧
    apply_modifiers object_at schema schema_id data st = (st1, Return modified_data) ∧
    validate_event (schemas st) schema_id (heap st1 !!! modified_data) = Return tt ∧
    capsule = make_capsule schema_id schema (default (clock st) timestamp_override)
                (heap st1 !!! modified_data) ∧
    logged st' = logged st ++ [capsule] ∧
    heap st' = heap st1.
Proof.
  destruct (nothing_listening_result st schema_id) as [[[|]|e] Hg].
  - unfold emit. unfold mbind at 1, M_bind at 1. rewrite Hg. by run.
  - destruct (contains (schemas st) schema_id) eqn:Hc.
    + destruct (get (schemas st) schema_id) as [schema|e] eqn:Hget.
      * rewrite (emit_registered _ _ _ _ schema) by done.
        destruct (apply_modifiers object_at schema schema_id data st) as [st1 [l|e]] eqn:Hm;
          [|done].
        pose proof Hm as (Ho & _ & _)%apply_modifiers_frame.
        destruct (validate schema schema_id data l st1) as [st2 [[]|e]] eqn:Hv; [|done].
        apply validate_returns in Hv as [-> Hv].
        unfold record_and_dispatch. unfold mbind at 1, M_bind at 1.
        assert (Hts : (match timestamp_override with
                       | Some t => mret t
                       | None => gets clock
                       end : M datetime) st1
                      = (st1, Return (default (clock st1) timestamp_override))).
        { by destruct timestamp_override. }
        rewrite Hts. run. unfold logger_info, modify. cbn.
        destruct (_modified_listeners st1 !! schema_id) as [ml|]; [|done]. cbn.
        rewrite for_each_create_task. cbn.
        destruct (_unmodified_listeners st1 !! schema_id) as [ul|]; [|done]. cbn.
        rewrite for_each_create_task. cbn. intros [= <- <-]. cbn.
        apply only_heap_fields in Ho as (_ & Hs & _ & _ & _ & _ & Hk & _ & _ & Hl).
        rewrite Hs in Hv. exists schema, st1, l. unfold make_capsule, dict_update.
        by rewrite Hk, Hl.
      * unfold emit. unfold mbind at 1, M_bind at 1. rewrite Hg. run.
        by rewrite Hc, Hget.
    + unfold emit. unfold mbind at 1, M_bind at 1. rewrite Hg. run. rewrite Hc. cbn.
      by destruct (warn (not_registered_text schema_id) st) as [? [[]|?]].
  - unfold emit. unfold mbind at 1, M_bind at 1. by rewrite Hg.
Qed.

(** The whole pipeline, when nothing raises: the capsule of the modified
    data is handed to the logger, one task is scheduled per listener, and the
    capsule is returned. *)
Lemma emit_records st schema_id data timestamp_override schema st1 modified_data ml ul :
  nothing_listening schema_id st = (st, Return false) →
  contains (schemas st) schema_id = true →
  get (schemas st) schema_id = Return schema →
  apply_modifiers object_at schema schema_id data st = (st1, Return modified_data) →
  validate schema schema_id data modified_data st1 = (st1, Return tt) →
  _modified_listeners st !! schema_id = Some ml →
  _unmodified_listeners st !! schema_id = Some ul →
  let capsule :=
    make_capsule schema_id schema (default (clock st) timestamp_override)
      (heap st1 !!! modified_data) in
  emit object_at schema_id data timestamp_override st =
  (with_active_listeners
     (_active_listeners st ++ tasks_for ml schema_id modified_data
        ++ tasks_for ul schema_id data)
     (with_logged (logged st ++ [capsule]) st1),
   Return (Some capsule)).
Proof.
  intros Hg Hc Hget Hm Hv Hml Hul capsule.
  rewrite (emit_registered _ _ _ _ schema) by done. rewrite Hm, Hv.
  apply apply_modifiers_frame in Hm as (Ho & _ & _).
  apply only_heap_fields in Ho as (_ & _ & _ & Hml1 & Hul1 & Ha & Hk & _ & _ & Hl).
  rewrite (record_and_dispatch_ok _ _ _ _ _ _ ml ul) by by rewrite ?Hml1, ?Hul1.
  subst capsule. by rewrite Ha, Hk, Hl.
Qed.

Lemma nothing_listening_spec st schema_id ml ul :
  _modified_listeners st !! schema_id = Some ml →
  _unmodified_listeners st !! schema_id = Some ul →
  nothing_listening schema_id st =
  (st, Return (no_handlers (handlers st) && is_empty ml && is_empty ul)).
Proof.
  intros Hm Hu. unfold nothing_listening. run.
  destruct (no_handlers (handlers st)); [|done]. cbn. rewrite Hm. cbn.
  destruct (is_empty ml); [|done]. by rewrite Hu.
Qed.

Lemma prefix_lookup_total (h h' : list dict) l :
  h `prefix_of` h' → l < length h → h' !!! l = h !!! l.
Proof.
  intros Hp Hl. rewrite !list_lookup_total_alt.
  by rewrite (prefix_lookup_lt h h' l Hl Hp).
Qed.

(** ** Validation comes before recording *)

(** Whatever [emit] hands to the logger or schedules, it does so after
    the modified data has passed validation. *)
Lemma emit_records_only_validated st schema_id data timestamp_override st' r :
  emit object_at schema_id data timestamp_override st = (st', r) →
  logged st' ≠ logged st ∨ _active_listeners st' ≠ _active_listeners st →
  ∃ schema st1 modified_data,
    get (schemas st) schema_id = Return schema ∧
    apply_modifiers object_at schema schema_id data st = (st1, Return modified_data) ∧
    validate_event (schemas st) schema_id (heap st1 !!! modified_data) = Return tt.
Proof.
  assert (Hsame : ∀ st0,
    logged st0 = logged st → _active_listeners st0 = _active_listeners st →
    logged st0 ≠ logged st ∨ _active_listeners st0 ≠ _active_listeners st → False).
  { intros st0 Hl Ha [H|H]; by elim H. }
  destruct (nothing_listening_result st schema_id) as [[[|]|e] Hg].
  - unfold emit. unfold mbind at 1, M_bind at 1. rewrite Hg. cbn.
    intros [= <- <-] H. by destruct (Hsame st).
  - destruct (contains (schemas st) schema_id) eqn:Hc.
    + destruct (get (schemas st) schema_id) as [schema|e] eqn:Hget.
      * rewrite (emit_registered _ _ _ _ schema) by done.
        destruct (apply_modifiers object_at schema schema_id data st) as [st1 [l|e]] eqn:Hm;
          pose proof Hm as (Ho & _ & _)%apply_modifiers_frame;
          apply only_heap_fields in Ho as (_ & Hs & _ & _ & _ & Ha & _ & _ & _ & Hl).
        2:{ intros [= <- <-] H. by destruct (Hsame st1). }
        pose proof (validate_state schema schema_id data l st1) as Hst.
        destruct (validate schema schema_id data l st1) as [st2 [[]|e]] eqn:Hv;
          cbn in Hst; subst st2.
        2:{ intros [= <- <-] H. by destruct (Hsame st1). }
        apply validate_returns in Hv as [_ Hv]. rewrite Hs in Hv.
        intros _ _. by exists schema, st1, l.
      * unfold emit. unfold mbind at 1, M_bind at 1. rewrite Hg. run.
        rewrite Hc, Hget. cbn. intros [= <- <-] H. by destruct (Hsame st).
    + unfold emit. unfold mbind at 1, M_bind at 1. rewrite Hg. run. rewrite Hc. cbn.
      unfold warn. destruct (bool_decide _); cbn; intros [= <- <-] H;
        by destruct (Hsame _ eq_refl eq_refl H).
  - unfold emit. unfold mbind at 1, M_bind at 1. rewrite Hg. cbn.
    intros [= <- <-] H. by destruct (Hsame st).
Qed.

(** The modifier chain returns only if the schema has its set of
    modifiers. *)
Lemma apply_modifiers_returns_entry schema schema_id data st st' l :
  apply_modifiers object_at schema schema_id data st = (st', Return l) →
  EventSchema.id schema ∈ dom (_modifiers st).
Proof.
  unfold apply_modifiers, deepcopy. run.
  destruct (_modifiers st !! EventSchema.id schema) as [ms|] eqn:Hms; [|done].
  intros _. by apply elem_of_dom_2 in Hms.
Qed.

(** C3. For a registered schema, in a logger whose three tables have the
    same keys (as every method leaves them), once [emit] is past its guard
    and the modifiers have returned, the modified data is validated before the
    capsule is built: if [validate_event] raises on it, [emit] raises a
    validation error (that one, or the one raised on the caller's data when
    a listener of unmodified events made [emit] check it first), nothing is
    handed to the logger and no listener task is scheduled. *)
Theorem emit_invalid_modified_data_aborts
    st schema_id data timestamp_override schema st1 modified_data e :
  tables_aligned st →
  nothing_listening schema_id st = (st, Return false) →
  contains (schemas st) schema_id = true →
  get (schemas st) schema_id = Return schema →
  apply_modifiers object_at schema schema_id data st = (st1, Return modified_data) →
  validate_event (schemas st) schema_id (heap st1 !!! modified_data) = Raise e →
  ∃ e',
    emit object_at schema_id data timestamp_override st = (st1, Raise e') ∧
    (e' = e ∨ validate_event (schemas st) schema_id (heap st1 !!! data) = Raise e') ∧
    logged st1 = logged st ∧
    _active_listeners st1 = _active_listeners st.
Proof.
  intros [_ Hal] Hg Hc Hget Hm He.
  pose proof Hm as Hin%apply_modifiers_returns_entry.
  rewrite <-Hal in Hin. apply elem_of_dom in Hin as [ul Hu].
  rewrite (emit_registered _ _ _ _ schema) by done. rewrite Hm.
  pose proof Hm as (Ho & _ & _)%apply_modifiers_frame.
  apply only_heap_fields in Ho as (_ & Hs & _ & _ & Hul & Ha & _ & _ & _ & Hl).
  rewrite (validate_spec _ _ _ _ _ ul) by by rewrite Hul.
  rewrite Hs, He.
  destruct (is_empty ul).
  - exists e. auto.
  - destruct (validate_event (schemas st) schema_id (heap st1 !!! data)) as [[]|e'] eqn:Hraw.
    + exists e. auto.
    + exists e'. auto.
Qed.

(** ** Validation of the caller's data *)

(** C4, as the code has it.  Take an emit against a registered schema
    whose caller's data is invalid and whose modified data is valid.
    With a listener of unmodified events registered for the schema, [emit]
    validates the caller's data and raises its validation error.  With
    none, the caller's data is not validated: [emit] records and returns the
    capsule provided a handler or a listener of modified events is there;
    with neither, the guard of lines 337-341 makes it return [None] without
    recording. *)
Theorem emit_raw_data_checked_iff_unmodified_listener
    st schema_id data timestamp_override schema st1 modified_data ml ul e :
  contains (schemas st) schema_id = true →
  get (schemas st) schema_id = Return schema →
  EventSchema.id schema = schema_id →
  data < length (heap st) →
  _modified_listeners st !! schema_id = Some ml →
  _unmodified_listeners st !! schema_id = Some ul →
  apply_modifiers object_at schema schema_id data st = (st1, Return modified_data) →
  validate_event (schemas st) schema_id (heap st !!! data) = Raise e →
  validate_event (schemas st) schema_id (heap st1 !!! modified_data) = Return tt →
  let capsule :=
    make_capsule schema_id schema (default (clock st) timestamp_override)
      (heap st1 !!! modified_data) in
  (ul ≠ ∅ →
     emit object_at schema_id data timestamp_override st = (st1, Raise e) ∧
     logged st1 = logged st) ∧
  (ul = ∅ → no_handlers (handlers st) = false ∨ ml ≠ ∅ →
     ∃ st', emit object_at schema_id data timestamp_override st
              = (st', Return (Some capsule)) ∧
            logged st' = logged st ++ [capsule]) ∧
  (ul = ∅ → no_handlers (handlers st) = true → ml = ∅ →
     emit object_at schema_id data timestamp_override st = (st, Return None)).
Proof.
  intros Hc Hget Hid Hdata Hml Hul Hm Hraw Hmod capsule.
  pose proof Hm as (Ho & Hp & _)%apply_modifiers_frame.
  apply only_heap_fields in Ho as (_ & Hs & _ & Hml1 & Hul1 & Ha & Hk & _ & _ & Hl).
  assert (Hv : validate schema schema_id data modified_data st1 =
               (st1, if is_empty ul then Return tt else Raise e)).
  { rewrite (validate_spec _ _ _ _ _ ul) by by rewrite Hul1, Hid.
    rewrite Hs, Hmod, (prefix_lookup_total (heap st)), Hraw by done. done. }
  split; [|split].
  - intros Hne%is_empty_false.
    rewrite (emit_registered _ _ _ _ schema); [|
      by rewrite (nothing_listening_spec _ _ ml ul), Hne, andb_false_r|done..].
    by rewrite Hm, Hv, Hne.
  - intros He%is_empty_true Hroute.
    rewrite (emit_registered _ _ _ _ schema); [| |done..].
    2:{ rewrite (nothing_listening_spec _ _ ml ul) by done.
        destruct Hroute as [->|Hne%is_empty_false]; [done|].
        by rewrite Hne, andb_false_r. }
    rewrite Hm, Hv, He.
    rewrite (record_and_dispatch_ok _ _ _ _ _ _ ml ul) by by rewrite ?Hml1, ?Hul1.
    rewrite Hk. eexists. split; [done|]. cbn. by rewrite Hl.
  - intros -> Hh ->. unfold emit. unfold mbind at 1, M_bind at 1.
    by rewrite nothing_listening_true.
Qed.

(** ** The capsule *)

Lemma make_capsule_data schema_id schema timestamp (md : dict) k v :
  md !! k = Some v → make_capsule schema_id schema timestamp md !! k = Some v.
Proof. intros Hk. unfold make_capsule, dict_update. by apply lookup_union_Some_l. Qed.

Lemma make_capsule_other schema_id schema timestamp (md : dict) k :
  k ∉ reserved_keys → make_capsule schema_id schema timestamp md !! k = md !! k.
Proof.
  intros Hk. unfold make_capsule, dict_update.
  destruct (md !! k) as [v|] eqn:Hmd.
  - by apply lookup_union_Some_l.
  - rewrite lookup_union_r by done. unfold reserved_keys in Hk.
    rewrite !lookup_insert_ne, lookup_singleton_ne; [done|set_solver..].
Qed.

Lemma make_capsule_reserved schema_id schema timestamp (md : dict) k :
  md !! k = None →
  make_capsule schema_id schema timestamp md !! k =
  if decide (k = "__timestamp__") then Some (VStr (isoformat timestamp +:+ "Z"))
  else if decide (k = "__schema__") then Some (VStr schema_id)
  else if decide (k = "__schema_version__") then Some (EventSchema.version schema)
  else if decide (k = "__metadata_version__") then Some (VInt 1)
  else None.
Proof.
  intros Hk. unfold make_capsule, dict_update. rewrite lookup_union_r by done.
  repeat case_decide; simplify_map_eq; done.
Qed.

(** C5, as the code has it.  The capsule a successful [emit] returns is
    the one handed to the logger.  It holds every field of the modified
    data; each of the four reserved keys the modified data does not itself
    hold carries the value set by [emit]: the timestamp, override or clock,
    printed by [isoformat] and followed by [Z], the schema id, the version
    of the schema, and the metadata version 1; and it holds no other key. *)
Theorem emit_capsule_fields st schema_id data timestamp_override st' capsule :
  emit object_at schema_id data timestamp_override st = (st', Return (Some capsule)) →
  ∃ schema st1 modified_data,
    get (schemas st) schema_id = Return schema ∧
    apply_modifiers object_at schema schema_id data st = (st1, Return modified_data) ∧
    logged st' = logged st ++ [capsule] ∧
    let md := heap st1 !!! modified_data in
    (∀ k v, md !! k = Some v → capsule !! k = Some v) ∧
    (md !! "__timestamp__" = None →
       capsule !! "__timestamp__" =
       Some (VStr (isoformat (default (clock st) timestamp_override) +:+ "Z"))) ∧
    (md !! "__schema__" = None → capsule !! "__schema__" = Some (VStr schema_id)) ∧
    (md !! "__schema_version__" = None →
       capsule !! "__schema_version__" = Some (EventSchema.version schema)) ∧
    (md !! "__metadata_version__" = None →
       capsule !! "__metadata_version__" = Some (VInt 1)) ∧
    (∀ k, k ∉ reserved_keys → capsule !! k = md !! k).
Proof.
  intros (schema & st1 & l & _ & Hget & Hm & _ & -> & Hl & _)%emit_returns_capsule.
  exists schema, st1, l. do 3 (split; [done|]). cbn.
  split; [intros k v; apply make_capsule_data|].
  do 4 (split; [by intros ->%(make_capsule_reserved schema_id schema
                   (default (clock st) timestamp_override))|]).
  intros k. apply make_capsule_other.
Qed.

(** C9. When the modified data itself holds one of the reserved keys,
    the capsule handed to the logger and returned carries the value of the
    data under that key, not the one [emit] had set: [capsule.update] runs
    after the reserved fields are filled in. *)
Theorem emit_data_overwrites_reserved
    st schema_id data timestamp_override st' capsule schema st1 modified_data k v :
  emit object_at schema_id data timestamp_override st = (st', Return (Some capsule)) →
  get (schemas st) schema_id = Return schema →
  apply_modifiers object_at schema schema_id data st = (st1, Return modified_data) →
  k ∈ reserved_keys →
  (heap st1 !!! modified_data) !! k = Some v →
  capsule !! k = Some v ∧
  last (logged st') = Some capsule ∧
  is_Some (make_capsule schema_id schema (default (clock st) timestamp_override) ∅ !! k).
Proof.
  intros (schema' & st1' & l & _ & Hget' & Hm' & _ & -> & Hl & _)%emit_returns_capsule
    Hget Hm Hk Hv.
  rewrite Hget in Hget'. injection Hget' as <-.
  rewrite Hm in Hm'. injection Hm' as <- <-.
  split; [by apply make_capsule_data|]. split; [by rewrite Hl, last_snoc|].
  rewrite make_capsule_reserved by done.
  unfold reserved_keys in Hk. rewrite !elem_of_cons, elem_of_nil in Hk.
  destruct Hk as [->|[->|[->|[->|[]]]]]; by eexists.
Qed.

(** ** The callback tables *)

Lemma truthy_Some (s : string) : s ≠ "" → truthy (Some s) = true.
Proof. intros Hs. cbn. by apply negb_true_iff, String.eqb_neq. Qed.

Lemma with_modified_listeners_id st :
  with_modified_listeners (_modified_listeners st) st = st.
Proof. by destruct st. Qed.

#[local] Arguments set_add : simpl never.
#[local] Arguments set_discard : simpl never.

Lemma set_add_lookup (tbl : table) k x s :
  tbl !! k = Some s → set_add (Some k) x tbl = Return (<[k := s ∪ {[x]}]> tbl).
Proof. intros Hk. unfold set_add. by rewrite Hk. Qed.

(** Adding to a set what it already holds changes nothing. *)
Lemma set_add_present (tbl : table) k x s :
  tbl !! k = Some s → x ∈ s → set_add (Some k) x tbl = Return tbl.
Proof.
  intros Hk Hx. unfold set_add. rewrite Hk. f_equal.
  apply insert_id. rewrite Hk. f_equal. set_solver.
Qed.

Lemma inspect_signature_callable o sig call st :
  object_at o = Callable (Some sig) call →
  callable object_at o = true ∧
  inspect_signature object_at o st = (st, Return sig).
Proof. intros Ho. unfold callable, inspect_signature. by rewrite Ho. Qed.

(** [add_modifier] and [remove_modifier] with a schema id. *)
Lemma add_modifier_one st schema_id modifier call s :
  schema_id ≠ "" →
  object_at modifier = Callable (Some modifier_signature) call →
  _modifiers st !! schema_id = Some s →
  add_modifier object_at (Some schema_id) modifier st =
  (with_modifiers (<[schema_id := s ∪ {[modifier]}]> (_modifiers st)) st, Return tt).
Proof.
  intros Hid [Hc Hsig]%(inspect_signature_callable _ _ _ st) Hs.
  unfold add_modifier. rewrite Hc, truthy_Some by done. cbn.
  unfold mbind, M_bind. rewrite Hsig. cbn.
  unfold update_modifiers. by rewrite (set_add_lookup _ _ _ s).
Qed.

Lemma remove_modifier_one st schema_id modifier s :
  schema_id ≠ "" →
  _modifiers st !! schema_id = Some s →
  remove_modifier (Some schema_id) modifier st =
  (with_modifiers (<[schema_id := s ∖ {[modifier]}]> (_modifiers st)) st, Return tt).
Proof.
  intros Hid Hs. unfold remove_modifier. rewrite truthy_Some by done.
  unfold update_modifiers, set_discard. by rewrite Hs.
Qed.

Lemma add_remove_modifier st schema_id modifier call s :
  schema_id ≠ "" →
  object_at modifier = Callable (Some modifier_signature) call →
  _modifiers st !! schema_id = Some s →
  modifier ∉ s →
  (add_modifier object_at (Some schema_id) modifier;;
   remove_modifier (Some schema_id) modifier) st = (st, Return tt).
Proof.
  intros Hid Ho Hs Hm. unfold mbind, M_bind.
  rewrite (add_modifier_one _ _ _ call s) by done.
  rewrite (remove_modifier_one _ _ _ (s ∪ {[modifier]}))
    by (done || by cbn; rewrite lookup_insert_eq).
  cbn. rewrite insert_insert_eq.
  replace ((s ∪ {[modifier]}) ∖ {[modifier]}) with s by set_solver.
  rewrite insert_id by done. by destruct st.
Qed.

(** A loop whose body changes nothing changes nothing. *)
Lemma for_each_noop {A} (xs : list A) (body : A → M unit) st :
  (∀ x, x ∈ xs → body x st = (st, Return tt)) →
  for_each xs body st = (st, Return tt).
Proof.
  induction xs as [|x xs IH]; intros Hbody; cbn; [done|].
  unfold mbind, M_bind. rewrite Hbody by left.
  apply IH. intros y Hy. apply Hbody. by right.
Qed.

(** [add_listener] with a schema id: a listener of modified events goes
    to the one set and the method returns; a listener of unmodified events
    goes to the other set, and the loop that follows adds it there again. *)
Lemma add_listener_modified_one st schema_id listener call s :
  schema_id ≠ "" →
  object_at listener = Callable (Some listener_signature) call →
  _modified_listeners st !! schema_id = Some s →
  add_listener object_at true (Some schema_id) listener st =
  (with_modified_listeners
     (<[schema_id := s ∪ {[listener]}]> (_modified_listeners st)) st, Return tt).
Proof.
  intros Hid [Hc Hsig]%(inspect_signature_callable _ _ _ st) Hs.
  unfold add_listener. rewrite Hc, truthy_Some by done. cbn.
  unfold mbind, M_bind. rewrite Hsig. cbn.
  unfold update_modified_listeners. by rewrite (set_add_lookup _ _ _ s).
Qed.

Lemma add_listener_unmodified_one st schema_id listener call s :
  schema_id ≠ "" →
  object_at listener = Callable (Some listener_signature) call →
  _unmodified_listeners st !! schema_id = Some s →
  add_listener object_at false (Some schema_id) listener st =
  (with_unmodified_listeners
     (<[schema_id := s ∪ {[listener]}]> (_unmodified_listeners st)) st, Return tt).
Proof.
  intros Hid [Hc Hsig]%(inspect_signature_callable _ _ _ st) Hs.
  unfold add_listener. rewrite Hc, truthy_Some by done. cbn.
  unfold mbind at 1, M_bind at 1. rewrite Hsig. cbn.
  unfold mbind at 1, M_bind at 1.
  unfold update_unmodified_listeners at 1. rewrite (set_add_lookup _ _ _ s) by done.
  unfold mbind at 1, M_bind at 1. unfold gets at 1.
  rewrite for_each_noop; [done|]. intros id _.
  match goal with |- (if ?b then _ else _) _ = _ => destruct b end; [|done].
  unfold update_unmodified_listeners. cbn.
  rewrite (set_add_present _ _ _ (s ∪ {[listener]}));
    [|by rewrite lookup_insert_eq|set_solver].
  done.
Qed.

Lemma remove_listener_one st schema_id listener s1 s2 :
  schema_id ≠ "" →
  _modified_listeners st !! schema_id = Some s1 →
  _unmodified_listeners st !! schema_id = Some s2 →
  remove_listener (Some schema_id) listener st =
  (with_unmodified_listeners
     (<[schema_id := s2 ∖ {[listener]}]> (_unmodified_listeners st))
     (with_modified_listeners
        (<[schema_id := s1 ∖ {[listener]}]> (_modified_listeners st)) st),
   Return tt).
Proof.
  intros Hid Hs1 Hs2. unfold remove_listener. rewrite truthy_Some by done.
  unfold mbind, M_bind, update_modified_listeners, update_unmodified_listeners,
    set_discard.
  rewrite Hs1. cbn. by rewrite Hs2.
Qed.

Lemma add_remove_listener st schema_id listener call modified s1 s2 :
  schema_id ≠ "" →
  object_at listener = Callable (Some listener_signature) call →
  _modified_listeners st !! schema_id = Some s1 →
  _unmodified_listeners st !! schema_id = Some s2 →
  listener ∉ s1 →
  listener ∉ s2 →
  (add_listener object_at modified (Some schema_id) listener;;
   remove_listener (Some schema_id) listener) st = (st, Return tt).
Proof.
  intros Hid Ho Hs1 Hs2 Hl1 Hl2. unfold mbind, M_bind. destruct modified.
  - rewrite (add_listener_modified_one _ _ _ call s1) by done.
    rewrite (remove_listener_one _ _ _ (s1 ∪ {[listener]}) s2)
      by (done || by cbn; rewrite lookup_insert_eq).
    cbn. rewrite insert_insert_eq.
    replace ((s1 ∪ {[listener]}) ∖ {[listener]}) with s1 by set_solver.
    replace (s2 ∖ {[listener]}) with s2 by set_solver.
    rewrite !insert_id by done. by destruct st.
  - rewrite (add_listener_unmodified_one _ _ _ call s2) by done.
    rewrite (remove_listener_one _ _ _ s1 (s2 ∪ {[listener]}))
      by (done || by cbn; rewrite lookup_insert_eq).
    cbn. rewrite insert_insert_eq.
    replace ((s2 ∪ {[listener]}) ∖ {[listener]}) with s2 by set_solver.
    replace (s1 ∖ {[listener]}) with s1 by set_solver.
    rewrite !insert_id by done. by destruct st.
Qed.

(** C8, as the code has it.  For a schema id that is a non-empty string
    with an entry in the tables: adding a valid modifier that the schema's
    set did not hold and then removing it leaves the whole logger as it
    was; so does adding a valid listener that neither listener set of the
    schema held, as a listener of modified or of unmodified events, and
    then removing it. *)
Theorem add_then_remove_restores st schema_id :
  schema_id ≠ "" →
  (∀ modifier call s,
     object_at modifier = Callable (Some modifier_signature) call →
     _modifiers st !! schema_id = Some s →
     modifier ∉ s →
     (add_modifier object_at (Some schema_id) modifier;;
      remove_modifier (Some schema_id) modifier) st = (st, Return tt)) ∧
  (∀ listener call modified s1 s2,
     object_at listener = Callable (Some listener_signature) call →
     _modified_listeners st !! schema_id = Some s1 →
     _unmodified_listeners st !! schema_id = Some s2 →
     listener ∉ s1 →
     listener ∉ s2 →
     (add_listener object_at modified (Some schema_id) listener;;
      remove_listener (Some schema_id) listener) st = (st, Return tt)).
Proof.
  intros Hid. split.
  - intros. by eapply add_remove_modifier.
  - intros. by eapply add_remove_listener.
Qed.

(** C10. Whenever the registry accepts a registration, the three sets of
    the id of the registered schema are empty afterwards, whatever they held
    before; the entries of the other ids are kept. *)
Theorem register_event_schema_resets st (source : Src) r' event_schema :
  register (schemas st) source = (r', Return event_schema) →
  ∃ st',
    register_event_schema source st = (st', Return tt) ∧
    schemas st' = r' ∧
    _modifiers st' = <[EventSchema.id event_schema := ∅]> (_modifiers st) ∧
    _modified_listeners st' =
      <[EventSchema.id event_schema := ∅]> (_modified_listeners st) ∧
    _unmodified_listeners st' =
      <[EventSchema.id event_schema := ∅]> (_unmodified_listeners st) ∧
    _modifiers st' !! EventSchema.id event_schema = Some ∅ ∧
    _modified_listeners st' !! EventSchema.id event_schema = Some ∅ ∧
    _unmodified_listeners st' !! EventSchema.id event_schema = Some ∅.
Proof.
  intros Hreg. unfold register_event_schema. run. rewrite Hreg. cbn.
  eexists. split; [done|]. cbn. by rewrite !lookup_insert_eq.
Qed.

(** When the registry rejects the schema, nothing is reset. *)
Lemma register_event_schema_rejected st (source : Src) r' e :
  register (schemas st) source = (r', Raise e) →
  register_event_schema source st = (with_schemas r' st, Raise e).
Proof. intros Hreg. unfold register_event_schema. run. by rewrite Hreg. Qed.

(** ** Emitting an event of a schema that is not registered *)

(** With no handler, the guard subscripts [self._modified_listeners] with
    the schema id before the registry is asked: for an id without an entry
    this raises [KeyError]. *)
Lemma emit_no_entry_no_handlers st schema_id data timestamp_override :
  no_handlers (handlers st) = true →
  _modified_listeners st !! schema_id = None →
  emit object_at schema_id data timestamp_override st
  = (st, Raise (KeyError (Some schema_id))).
Proof.
  intros Hh Hm. unfold emit. unfold mbind at 1, M_bind at 1.
  by rewrite nothing_listening_missing.
Qed.

(** C1, as the code has it.  For a schema id the registry does not hold,
    whenever the guard of lines 337-341 gives an answer [emit] returns [None]
    and records and schedules nothing.  If the guard answers that somebody
    listens (a handler is configured, or a listener set of the id is not
    empty), the [SchemaNotRegistered] warning is issued: its text is now known
    to the ["once"] filter, and was shown if it was not known before.  If the
    guard answers that nobody listens, [emit] has returned before the
    registration check and no warning is issued. *)
Theorem emit_unregistered st schema_id data timestamp_override (skip : bool) :
  contains (schemas st) schema_id = false →
  nothing_listening schema_id st = (st, Return skip) →
  let text := not_registered_text schema_id in
  ∃ st',
    emit object_at schema_id data timestamp_override st = (st', Return None) ∧
    logged st' = logged st ∧
    _active_listeners st' = _active_listeners st ∧
    heap st' = heap st ∧
    if skip then st' = st
    else
      text ∈ onceregistry st' ∧
      (text ∉ onceregistry st → warnings_shown st' = warnings_shown st ++ [text]) ∧
      (text ∈ onceregistry st → st' = st).
Proof.
  intros Hc Hg text. unfold emit. unfold mbind at 1, M_bind at 1. rewrite Hg.
  destruct skip.
  - by exists st.
  - run. rewrite Hc. cbn.
    unfold warn. fold text. case_bool_decide as Hin; cbn.
    + exists st. by repeat split.
    + eexists. split; [done|]. cbn. repeat split; [set_solver|done..].
Qed.

(** ** Listeners for every schema *)

(** A listener of unmodified events added without a schema id: as soon
    as one schema is registered, the first turn of the loop subscripts
    [self._unmodified_listeners] with the parameter [schema_id], which is
    [None], and raises [KeyError]; no set has been touched. *)
Lemma add_listener_unmodified_all_raises st listener call id ids :
  object_at listener = Callable (Some listener_signature) call →
  schema_ids (schemas st) = id :: ids →
  add_listener object_at false None listener st = (st, Raise (KeyError None)).
Proof.
  intros [Hc Hsig]%(inspect_signature_callable _ _ _ st) Hids.
  unfold add_listener. rewrite Hc. cbn.
  unfold mbind at 1, M_bind at 1. rewrite Hsig. cbn.
  unfold mbind at 1, M_bind at 1. unfold gets at 1. by rewrite Hids.
Qed.

(** With no schema registered the loop does not run. *)
Lemma add_listener_unmodified_all_none st listener call :
  object_at listener = Callable (Some listener_signature) call →
  schema_ids (schemas st) = [] →
  add_listener object_at false None listener st = (st, Return tt).
Proof.
  intros [Hc Hsig]%(inspect_signature_callable _ _ _ st) Hids.
  unfold add_listener. rewrite Hc. cbn.
  unfold mbind at 1, M_bind at 1. rewrite Hsig. cbn.
  unfold mbind at 1, M_bind at 1. unfold gets at 1. by rewrite Hids.
Qed.

Lemma for_each_ext {A} (xs : list A) (f g : A → M unit) st :
  (∀ x st0, f x st0 = g x st0) → for_each xs f st = for_each xs g st.
Proof.
  intros Hfg. revert st. induction xs as [|x xs IH]; intros st; cbn; [done|].
  unfold mbind, M_bind. rewrite Hfg. by destruct (g x st) as [st1 [[]|e]].
Qed.

Lemma fan_out_modified listener ids : ∀ st,
  (∀ id, id ∈ ids → is_Some (_modified_listeners st !! id)) →
  ∃ tbl : table,
    for_each ids (λ id, update_modified_listeners (set_add (Some id) listener)) st
    = (with_modified_listeners tbl st, Return tt) ∧
    ∀ k, tbl !! k =
         if bool_decide (k ∈ ids)
         then (λ s, s ∪ {[listener]}) <$> _modified_listeners st !! k
         else _modified_listeners st !! k.
Proof.
  induction ids as [|id ids IH]; intros st Hall; cbn.
  - exists (_modified_listeners st). by rewrite with_modified_listeners_id.
  - destruct (Hall id) as [s Hs]; [by left|].
    unfold mbind at 1, M_bind at 1. unfold update_modified_listeners at 1.
    rewrite (set_add_lookup _ _ _ s) by done.
    set (st1 := with_modified_listeners _ st).
    destruct (IH st1) as (tbl & Hloop & Htbl).
    { intros id' Hid'. cbn. rewrite lookup_insert.
      case_decide; [done|]. apply Hall. by right. }
    exists tbl. split; [by rewrite Hloop|].
    intros k. rewrite Htbl. cbn. rewrite lookup_insert.
    destruct (decide (id = k)) as [->|Hne].
    + rewrite (bool_decide_eq_true_2 (k ∈ k :: ids)) by left. rewrite Hs. cbn.
      case_bool_decide; cbn; f_equal; set_solver.
    + case_bool_decide as Hk.
      * by rewrite bool_decide_eq_true_2 by by right.
      * rewrite bool_decide_eq_false_2; [done|]. set_solver.
Qed.

(** The sibling branch: a listener of modified events added without a
    schema id goes to the set of every id the registry lists, since line
    279 subscripts with the loop variable. *)
Lemma add_listener_modified_all st listener call :
  object_at listener = Callable (Some listener_signature) call →
  (∀ id, id ∈ schema_ids (schemas st) → is_Some (_modified_listeners st !! id)) →
  ∃ tbl : table,
    add_listener object_at true None listener st
    = (with_modified_listeners tbl st, Return tt) ∧
    ∀ k, tbl !! k =
         if bool_decide (k ∈ schema_ids (schemas st))
         then (λ s, s ∪ {[listener]}) <$> _modified_listeners st !! k
         else _modified_listeners st !! k.
Proof.
  intros [Hc Hsig]%(inspect_signature_callable _ _ _ st) Hall.
  destruct (fan_out_modified listener _ st Hall) as (tbl & Hloop & Htbl).
  exists tbl. split; [|done].
  unfold add_listener. rewrite Hc. cbn.
  unfold mbind at 1, M_bind at 1. rewrite Hsig. cbn.
  unfold mbind at 1, M_bind at 1. unfold gets at 1.
  rewrite <-Hloop. by apply for_each_ext.
Qed.

(** ** The tables stay aligned *)

Lemma set_add_dom key x (tbl tbl' : table) :
  set_add key x tbl = Return tbl' → dom tbl' = dom tbl.
Proof.
  unfold set_add. destruct key as [k|]; [|done].
  destruct (tbl !! k) as [s|] eqn:Hk; [|done]. intros [= <-].
  rewrite dom_insert_L. apply elem_of_dom_2 in Hk. set_solver.
Qed.

Lemma set_discard_dom key x (tbl tbl' : table) :
  set_discard key x tbl = Return tbl' → dom tbl' = dom tbl.
Proof.
  unfold set_discard. destruct key as [k|]; [|done].
  destruct (tbl !! k) as [s|] eqn:Hk; [|done]. intros [= <-].
  rewrite dom_insert_L. apply elem_of_dom_2 in Hk. set_solver.
Qed.

Lemma update_modifiers_aligned (f : table → res table) st st' r :
  (∀ tbl tbl', f tbl = Return tbl' → dom tbl' = dom tbl) →
  update_modifiers f st = (st', r) → tables_aligned st → tables_aligned st'.
Proof.
  intros Hf. unfold update_modifiers.
  destruct (f (_modifiers st)) as [tbl'|e] eqn:Hft; intros [= <- <-]; [|done].
  intros [H1 H2]. apply Hf in Hft. split; cbn; congruence.
Qed.

Lemma update_modified_listeners_aligned (f : table → res table) st st' r :
  (∀ tbl tbl', f tbl = Return tbl' → dom tbl' = dom tbl) →
  update_modified_listeners f st = (st', r) → tables_aligned st → tables_aligned st'.
Proof.
  intros Hf. unfold update_modified_listeners.
  destruct (f (_modified_listeners st)) as [tbl'|e] eqn:Hft; intros [= <- <-]; [|done].
  intros [H1 H2]. apply Hf in Hft. split; cbn; congruence.
Qed.

Lemma update_unmodified_listeners_aligned (f : table → res table) st st' r :
  (∀ tbl tbl', f tbl = Return tbl' → dom tbl' = dom tbl) →
  update_unmodified_listeners f st = (st', r) → tables_aligned st → tables_aligned st'.
Proof.
  intros Hf. unfold update_unmodified_listeners.
  destruct (f (_unmodified_listeners st)) as [tbl'|e] eqn:Hft; intros [= <- <-]; [|done].
  intros [H1 H2]. apply Hf in Hft. split; cbn; congruence.
Qed.

(** What every turn of a loop preserves, the loop preserves, also when a
    turn raises. *)
Lemma for_each_preserves {A} (P : State → Prop) (body : A → M unit) (xs : list A) :
  (∀ x st st' r, body x st = (st', r) → P st → P st') →
  ∀ st st' r, for_each xs body st = (st', r) → P st → P st'.
Proof.
  intros Hbody. induction xs as [|x xs IH]; intros st st' r; cbn.
  - by intros [= <- <-].
  - unfold mbind, M_bind. destruct (body x st) as [st1 [[]|e]] eqn:Hx.
    + intros Hrest HP. eapply IH; [done|]. by eapply Hbody.
    + intros [= <- <-] HP. by eapply Hbody.
Qed.

Lemma bind_preserves {A B} (P : State → Prop) (m : M A) (k : A → M B) st st' r :
  (∀ st1 r1, m st = (st1, r1) → P st → P st1) →
  (∀ a st1 st2 r2, k a st1 = (st2, r2) → P st1 → P st2) →
  (m ≫= k) st = (st', r) → P st → P st'.
Proof.
  intros Hm Hk. unfold mbind, M_bind. destruct (m st) as [st1 [a|e]] eqn:Hmst.
  - intros Hka HP. eapply Hk; [done|]. by eapply Hm.
  - intros [= <- <-] HP. by eapply Hm.
Qed.

Lemma register_event_schema_aligned (source : Src) st st' r :
  register_event_schema source st = (st', r) → tables_aligned st → tables_aligned st'.
Proof.
  unfold register_event_schema. run.
  destruct (register (schemas st) source) as [r' [es|e]]; cbn; intros [= <- <-];
    intros [H1 H2]; [|done].
  split; cbn; rewrite !dom_insert_L; congruence.
Qed.

Lemma add_modifier_aligned target modifier st st' r :
  add_modifier object_at target modifier st = (st', r) →
  tables_aligned st → tables_aligned st'.
Proof.
  unfold add_modifier. destruct (negb _); [by intros [= <- <-]|].
  apply bind_preserves.
  { unfold inspect_signature. intros st1 r1.
    destruct (object_at modifier) as [|[sig|] call]; by intros [= <- <-]. }
  intros sig st1 st2 r2. destruct (String.eqb _ _); [|by intros [= <- <-]].
  destruct (truthy target).
  - apply update_modifiers_aligned, set_add_dom.
  - apply bind_preserves; [by intros ?? [= <- <-]|].
    intros ids. apply for_each_preserves. intros id st3 st4 r4.
    destruct (_ || _); [|by intros [= <- <-]].
    apply update_modifiers_aligned, set_add_dom.
Qed.

Lemma remove_modifier_aligned target modifier st st' r :
  remove_modifier target modifier st = (st', r) →
  tables_aligned st → tables_aligned st'.
Proof.
  unfold remove_modifier. destruct (truthy target).
  - apply update_modifiers_aligned, set_discard_dom.
  - apply bind_preserves; [by intros ?? [= <- <-]|].
    intros ids. apply for_each_preserves. intros id st3 st4 r4.
    apply bind_preserves.
    + intros ??. apply update_modifiers_aligned, set_discard_dom.
    + intros _ ???. apply update_modifiers_aligned, set_discard_dom.
Qed.

Lemma add_listener_aligned modified target listener st st' r :
  add_listener object_at modified target listener st = (st', r) →
  tables_aligned st → tables_aligned st'.
Proof.
  unfold add_listener. destruct (negb _); [by intros [= <- <-]|].
  apply bind_preserves.
  { unfold inspect_signature. intros st1 r1.
    destruct (object_at listener) as [|[sig|] call]; by intros [= <- <-]. }
  intros sig st1 st2 r2. destruct (String.eqb _ _); [|by intros [= <- <-]].
  assert (Hloop : ∀ st3 st4 r4,
    (ids ← gets (λ st, schema_ids (schemas st));
     for_each ids (λ id,
       if bool_decide (target = None) || bool_decide (Some id = target)
       then
         if modified
         then update_modified_listeners (set_add (Some id) listener)
         else update_unmodified_listeners (set_add target listener)
       else mret tt)) st3 = (st4, r4) →
    tables_aligned st3 → tables_aligned st4).
  { intros st3 st4 r4. apply bind_preserves; [by intros ?? [= <- <-]|].
    intros ids. apply for_each_preserves. intros id st5 st6 r6.
    destruct (_ || _); [|by intros [= <- <-]].
    destruct modified.
    - apply update_modified_listeners_aligned, set_add_dom.
    - apply update_unmodified_listeners_aligned, set_add_dom. }
  destruct (truthy target); [|apply Hloop].
  destruct modified.
  - apply update_modified_listeners_aligned, set_add_dom.
  - apply bind_preserves.
    + intros ??. apply update_unmodified_listeners_aligned, set_add_dom.
    + intros _. apply Hloop.
Qed.

Lemma remove_listener_aligned target listener st st' r :
  remove_listener target listener st = (st', r) →
  tables_aligned st → tables_aligned st'.
Proof.
  unfold remove_listener. destruct (truthy target).
  - apply bind_preserves.
    + intros ??. apply update_modified_listeners_aligned, set_discard_dom.
    + intros _ ???. apply update_unmodified_listeners_aligned, set_discard_dom.
  - apply bind_preserves; [by intros ?? [= <- <-]|].
    intros ids. apply for_each_preserves. intros id st3 st4 r4.
    apply bind_preserves.
    + intros ??. apply update_modified_listeners_aligned, set_discard_dom.
    + intros _ ???. apply update_unmodified_listeners_aligned, set_discard_dom.
Qed.

Lemma same_logger_refl st : same_logger st st.
Proof. by repeat split. Qed.

Lemma only_heap_same_logger st st' : only_heap st st' → same_logger st st'.
Proof.
  intros (? & ? & ? & ? & ? & _)%only_heap_fields. by repeat split.
Qed.

Lemma same_logger_trans st1 st2 st3 :
  same_logger st1 st2 → same_logger st2 st3 → same_logger st1 st3.
Proof.
  intros (? & ? & ? & ? & ?) (? & ? & ? & ? & ?). repeat split; congruence.
Qed.

Lemma record_and_dispatch_same_logger
    schema schema_id data modified_data timestamp_override st :
  same_logger st
    (record_and_dispatch schema schema_id data modified_data timestamp_override st).1.
Proof.
  unfold record_and_dispatch.
  unfold mbind at 1, M_bind at 1.
  assert (Hts : (match timestamp_override with
                 | Some t => mret t
                 | None => gets clock
                 end : M datetime) st
                = (st, Return (default (clock st) timestamp_override))).
  { by destruct timestamp_override. }
  rewrite Hts. run. unfold logger_info, modify. cbn.
  destruct (_modified_listeners st !! schema_id) as [ml|]; [|done]. cbn.
  rewrite for_each_create_task. cbn.
  destruct (_unmodified_listeners st !! schema_id) as [ul|]; [|done]. cbn.
  by rewrite for_each_create_task.
Qed.

(** [emit] leaves the handlers, the registry and the three tables as they
    are, whatever its outcome. *)
Lemma emit_same_logger st schema_id data timestamp_override :
  same_logger st (emit object_at schema_id data timestamp_override st).1.
Proof.
  unfold emit. unfold mbind at 1, M_bind at 1.
  pose proof (nothing_listening_state st schema_id) as Hg.
  destruct (nothing_listening schema_id st) as [st0 [[|]|e]]; cbn in Hg; subst st0;
    [apply same_logger_refl| |apply same_logger_refl].
  run. destruct (contains (schemas st) schema_id); cbn.
  - destruct (get (schemas st) schema_id) as [schema|e]; [|apply same_logger_refl].
    destruct (apply_modifiers object_at schema schema_id data st) as [st1 [l|e]] eqn:Hm;
      apply apply_modifiers_frame in Hm as (Ho%only_heap_same_logger & _ & _); [|done].
    pose proof (validate_state schema schema_id data l st1) as Hv.
    destruct (validate schema schema_id data l st1) as [st2 [[]|e]]; cbn in Hv; subst st2;
      [|done].
    pose proof (record_and_dispatch_same_logger schema schema_id data l
                  timestamp_override st1) as Hr.
    destruct (record_and_dispatch schema schema_id data l timestamp_override st1)
      as [st3 [c|e]]; cbn in Hr |- *; by eapply same_logger_trans.
  - unfold warn. by destruct (bool_decide _).
Qed.

Lemma emit_aligned st schema_id data timestamp_override :
  tables_aligned st →
  tables_aligned (emit object_at schema_id data timestamp_override st).1.
Proof.
  destruct (emit_same_logger st schema_id data timestamp_override)
    as (_ & _ & Hm & Hml & Hul).
  unfold tables_aligned. by rewrite Hm, Hml, Hul.
Qed.

End Properties.

(** * Further properties of the callback tables *)

Section Tables.
Context {R Src datetime : Type}.
Context `{!SchemaRegistry R Src} `{!Datetime datetime}.
Context (object_at : obj → pyobject).

Implicit Types (st : State (R:=R) (datetime:=datetime)).
Implicit Types (schema_id : string) (data l : loc) (schema : EventSchema.t).
Implicit Types (modifier listener : obj) (target : option string).

#[local] Set Warnings "-clear-no-such-hyp".
#[local] Arguments set_add : simpl never.
#[local] Arguments set_discard : simpl never.

Ltac run :=
  unfold mbind, M_bind, mret, M_ret, gets, modify, lift, raise, subscript,
    deref, store, alloc; cbn.

(** The exceptions with which [add_modifier] and [add_listener] turn an
    object down. *)
Definition rejection (wrong_signature : exn) (e : exn) : Prop :=
  e = wrong_signature ∨ (∃ msg, e = TypeError msg) ∨ (∃ msg, e = ValueError msg).

(** X1. [add_modifier] takes nothing but a callable whose signature is
    exactly that of [modifier_signature]: for any other object, and whatever
    the schema id, it raises ([TypeError] for a non-callable, [ModifierError]
    for another signature) and leaves the logger as it was. *)
Theorem add_modifier_rejects target modifier st :
  (∀ call, object_at modifier ≠ Callable (Some modifier_signature) call) →
  ∃ e, add_modifier object_at target modifier st = (st, Raise e) ∧
       rejection ModifierError e.
Proof.
  intros Hbad. unfold add_modifier, callable, inspect_signature, rejection.
  destruct (object_at modifier) as [|[sig|] call] eqn:Ho; cbn.
  - eexists. split; [done|]. right. left. by eexists.
  - run. destruct (String.eqb sig modifier_signature) eqn:Hsig.
    + apply String.eqb_eq in Hsig as ->. by destruct (Hbad call).
    + eexists. split; [done|]. by left.
  - run. eexists. split; [done|]. right. right. by eexists.
Qed.

(** X2. [add_listener] likewise: an object that is not a callable with
    exactly the signature of [listener_signature] is turned down with
    [TypeError] or [ListenerError], for either value of [modified], and no
    table changes. *)
Theorem add_listener_rejects modified target listener st :
  (∀ call, object_at listener ≠ Callable (Some listener_signature) call) →
  ∃ e, add_listener object_at modified target listener st = (st, Raise e) ∧
       rejection ListenerError e.
Proof.
  intros Hbad. unfold add_listener, callable, inspect_signature, rejection.
  destruct (object_at listener) as [|[sig|] call] eqn:Ho; cbn.
  - eexists. split; [done|]. right. left. by eexists.
  - unfold mbind at 1, M_bind at 1. cbn.
    destruct (String.eqb sig listener_signature) eqn:Hsig.
    + apply String.eqb_eq in Hsig as ->. by destruct (Hbad call).
    + eexists. split; [done|]. by left.
  - unfold mbind at 1, M_bind at 1. cbn.
    eexists. split; [done|]. right. right. by eexists.
Qed.

(** ** Schema ids without an entry *)

Lemma set_add_missing (tbl : table) k x :
  tbl !! k = None → set_add (Some k) x tbl = Raise (KeyError (Some k)).
Proof. intros Hk. unfold set_add. by rewrite Hk. Qed.

Lemma set_discard_missing (tbl : table) k x :
  tbl !! k = None → set_discard (Some k) x tbl = Raise (KeyError (Some k)).
Proof. intros Hk. unfold set_discard. by rewrite Hk. Qed.

Lemma set_discard_lookup (tbl : table) k x s :
  tbl !! k = Some s → set_discard (Some k) x tbl = Return (<[k := s ∖ {[x]}]> tbl).
Proof. intros Hk. unfold set_discard. by rewrite Hk. Qed.

Lemma aligned_missing st k :
  tables_aligned st → _modifiers st !! k = None →
  _modified_listeners st !! k = None ∧ _unmodified_listeners st !! k = None.
Proof.
  intros [H1 H2] Hk%not_elem_of_dom.
  split; apply not_elem_of_dom; congruence.
Qed.

(** X3. A non-empty schema id that has no entry in the tables, because no
    schema of that id went through [register_event_schema], makes the four
    methods that are given it raise [KeyError] with that id, removal
    included; nothing is changed. *)
Theorem unknown_schema_id_raises st schema_id modifier listener mcall lcall modified :
  schema_id ≠ "" →
  tables_aligned st →
  _modifiers st !! schema_id = None →
  object_at modifier = Callable (Some modifier_signature) mcall →
  object_at listener = Callable (Some listener_signature) lcall →
  add_modifier object_at (Some schema_id) modifier st
  = (st, Raise (KeyError (Some schema_id))) ∧
  remove_modifier (Some schema_id) modifier st
  = (st, Raise (KeyError (Some schema_id))) ∧
  add_listener object_at modified (Some schema_id) listener st
  = (st, Raise (KeyError (Some schema_id))) ∧
  remove_listener (Some schema_id) listener st
  = (st, Raise (KeyError (Some schema_id))).
Proof.
  intros Hid Hal Hm [Hcm Hsm]%(inspect_signature_callable _ _ _ _ st)
    [Hcl Hsl]%(inspect_signature_callable _ _ _ _ st).
  destruct (aligned_missing _ _ Hal Hm) as [Hml Hul].
  repeat split.
  - unfold add_modifier. rewrite Hcm, truthy_Some by done. cbn.
    unfold mbind, M_bind. rewrite Hsm. cbn.
    unfold update_modifiers. by rewrite set_add_missing.
  - unfold remove_modifier. rewrite truthy_Some by done.
    unfold update_modifiers. by rewrite set_discard_missing.
  - unfold add_listener. rewrite Hcl, truthy_Some by done. cbn.
    unfold mbind at 1, M_bind at 1. rewrite Hsl. cbn. destruct modified.
    + unfold update_modified_listeners. by rewrite set_add_missing.
    + unfold mbind at 1, M_bind at 1.
      unfold update_unmodified_listeners at 1. by rewrite set_add_missing.
  - unfold remove_listener. rewrite truthy_Some by done.
    unfold mbind, M_bind, update_modified_listeners. by rewrite set_discard_missing.
Qed.

(** ** Adding twice *)

(** X4. The tables hold sets: registering the same modifier, or the same
    listener, a second time for a schema gives the state the first
    registration gave. *)
Theorem add_twice_is_add_once st schema_id modifier listener mcall lcall modified s s1 s2 :
  schema_id ≠ "" →
  _modifiers st !! schema_id = Some s →
  _modified_listeners st !! schema_id = Some s1 →
  _unmodified_listeners st !! schema_id = Some s2 →
  object_at modifier = Callable (Some modifier_signature) mcall →
  object_at listener = Callable (Some listener_signature) lcall →
  (add_modifier object_at (Some schema_id) modifier;;
   add_modifier object_at (Some schema_id) modifier) st
  = add_modifier object_at (Some schema_id) modifier st ∧
  (add_listener object_at modified (Some schema_id) listener;;
   add_listener object_at modified (Some schema_id) listener) st
  = add_listener object_at modified (Some schema_id) listener st.
Proof.
  intros Hid Hs Hs1 Hs2 Hm Hl. split.
  - unfold mbind, M_bind.
    rewrite (add_modifier_one _ _ _ _ mcall s) by done.
    rewrite (add_modifier_one _ _ _ _ mcall (s ∪ {[modifier]}))
      by (done || by cbn; rewrite lookup_insert_eq).
    cbn. rewrite insert_insert_eq.
    by replace (s ∪ {[modifier]} ∪ {[modifier]}) with (s ∪ {[modifier]}) by set_solver.
  - unfold mbind, M_bind. destruct modified.
    + rewrite (add_listener_modified_one _ _ _ _ lcall s1) by done.
      rewrite (add_listener_modified_one _ _ _ _ lcall (s1 ∪ {[listener]}))
        by (done || by cbn; rewrite lookup_insert_eq).
      cbn. rewrite insert_insert_eq.
      by replace (s1 ∪ {[listener]} ∪ {[listener]}) with (s1 ∪ {[listener]})
        by set_solver.
    + rewrite (add_listener_unmodified_one _ _ _ _ lcall s2) by done.
      rewrite (add_listener_unmodified_one _ _ _ _ lcall (s2 ∪ {[listener]}))
        by (done || by cbn; rewrite lookup_insert_eq).
      cbn. rewrite insert_insert_eq.
      by replace (s2 ∪ {[listener]} ∪ {[listener]}) with (s2 ∪ {[listener]})
        by set_solver.
Qed.

(** ** The methods without a schema id *)

(** A loop that rewrites, for each id of [ids], the set stored under that id
    in one table.  [upd], [get] and [set] are the update, the getter and the
    setter of that table; [f] is [set_add] or [set_discard] for some callable
    and [g] what it does to a set. *)
Lemma for_each_update
    (upd : (table → res table) → M (R:=R) (datetime:=datetime) unit)
    (get : State → table) (set : table → State → State)
    (f : option string → table → res table) (g : gset obj → gset obj) ids :
  (∀ h st, upd h st = match h (get st) with
                      | Return t => (set t st, Return tt)
                      | Raise e => (st, Raise e)
                      end) →
  (∀ t st, get (set t st) = t) →
  (∀ t t' st, set t (set t' st) = set t st) →
  (∀ st, set (get st) st = st) →
  (∀ k tbl s, tbl !! k = Some s → f (Some k) tbl = Return (<[k := g s]> tbl)) →
  (∀ s, g (g s) = g s) →
  ∀ st, (∀ id, id ∈ ids → is_Some (get st !! id)) →
  ∃ tbl : table,
    for_each ids (λ id, upd (f (Some id))) st = (set tbl st, Return tt) ∧
    ∀ k, tbl !! k =
         if bool_decide (k ∈ ids) then g <$> get st !! k else get st !! k.
Proof.
  intros Hupd Hgs Hss Hsg Hf Hg.
  induction ids as [|id ids IH]; intros st Hall; cbn.
  - exists (get st). by rewrite Hsg.
  - destruct (Hall id) as [s Hs]; [by left|].
    unfold mbind at 1, M_bind at 1. rewrite Hupd, (Hf _ _ s) by done.
    destruct (IH (set (<[id := g s]> (get st)) st)) as (tbl & Hloop & Htbl).
    { intros id' Hid'. rewrite Hgs, lookup_insert.
      case_decide; [done|]. apply Hall. by right. }
    exists tbl. split; [by rewrite Hloop, Hss|].
    intros k. rewrite Htbl, Hgs, lookup_insert.
    destruct (decide (id = k)) as [->|Hne].
    + rewrite (bool_decide_eq_true_2 (k ∈ k :: ids)) by left. rewrite Hs. cbn.
      case_bool_decide; cbn; by rewrite ?Hg.
    + case_bool_decide as Hk.
      * by rewrite bool_decide_eq_true_2 by by right.
      * rewrite bool_decide_eq_false_2; [done|]. set_solver.
Qed.

(** The same loop stops with [KeyError] at the first id without an entry. *)
Lemma for_each_update_missing
    (upd : (table → res table) → M (R:=R) (datetime:=datetime) unit)
    (get : State → table) (set : table → State → State)
    (f : option string → table → res table) (g : gset obj → gset obj) ids :
  (∀ h st, upd h st = match h (get st) with
                      | Return t => (set t st, Return tt)
                      | Raise e => (st, Raise e)
                      end) →
  (∀ t st, get (set t st) = t) →
  (∀ k tbl s, tbl !! k = Some s → f (Some k) tbl = Return (<[k := g s]> tbl)) →
  (∀ k tbl, tbl !! k = None → f (Some k) tbl = Raise (KeyError (Some k))) →
  ∀ st, (∃ id, id ∈ ids ∧ get st !! id = None) →
  ∃ st' id',
    for_each ids (λ id, upd (f (Some id))) st = (st', Raise (KeyError (Some id'))) ∧
    id' ∈ ids ∧ get st !! id' = None.
Proof.
  intros Hupd Hgs Hf Hnone.
  induction ids as [|id ids IH]; intros st (bad & Hin & Hbad); cbn.
  - by apply elem_of_nil in Hin.
  - unfold mbind at 1, M_bind at 1. rewrite Hupd.
    destruct (get st !! id) as [s|] eqn:Hs.
    + rewrite (Hf _ _ s) by done.
      destruct (IH (set (<[id := g s]> (get st)) st)) as (st' & id' & Hloop & Hid' & Hn).
      { exists bad. split.
        - apply elem_of_cons in Hin as [->|]; [congruence|done].
        - rewrite Hgs, lookup_insert_ne; [done|]. congruence. }
      exists st', id'. split; [done|]. split; [by right|].
      rewrite Hgs in Hn. by apply lookup_insert_None in Hn as [? _].
    + rewrite Hnone by done. exists st, id. split; [done|]. by split; [left|].
Qed.

(** X5. [add_modifier] without a schema id runs over the keys of
    [self._modifiers] itself: a valid modifier joins the set of every entry,
    and the call cannot raise. *)
Theorem add_modifier_everywhere st modifier call :
  object_at modifier = Callable (Some modifier_signature) call →
  add_modifier object_at None modifier st
  = (with_modifiers ((λ s, s ∪ {[modifier]}) <$> _modifiers st) st, Return tt).
Proof.
  intros [Hc Hsig]%(inspect_signature_callable _ _ _ _ st).
  unfold add_modifier. rewrite Hc. cbn.
  unfold mbind at 1, M_bind at 1. rewrite Hsig. cbn.
  unfold mbind at 1, M_bind at 1. unfold gets at 1.
  destruct (for_each_update update_modifiers _modifiers with_modifiers
              (λ key, set_add key modifier) (λ s, s ∪ {[modifier]})
              (elements (dom (_modifiers st)))) with (st := st)
    as (tbl & Hloop & Htbl);
    [done|done|done|by intros []
    |intros k tbl s Hk; by apply set_add_lookup
    |intros s; set_solver
    |intros id Hid%elem_of_elements; by apply elem_of_dom|].
  trans (for_each (elements (dom (_modifiers st)))
           (λ id, update_modifiers (set_add (Some id) modifier)) st).
  { by apply for_each_ext. }
  rewrite Hloop. do 2 f_equal. apply map_eq. intros k.
  rewrite Htbl, lookup_fmap. case_bool_decide as Hk; [done|].
  rewrite elem_of_elements in Hk. apply not_elem_of_dom in Hk. by rewrite Hk.
Qed.

Lemma update_modifiers_discard_twice id modifier st :
  (update_modifiers (set_discard (Some id) modifier);;
   update_modifiers (set_discard (Some id) modifier)) st
  = update_modifiers (set_discard (Some id) modifier) st.
Proof.
  unfold mbind, M_bind, update_modifiers.
  destruct (_modifiers st !! id) as [s|] eqn:Hs.
  - rewrite (set_discard_lookup _ _ _ s) by done. cbn.
    rewrite (set_discard_lookup _ _ _ (s ∖ {[modifier]})) by by rewrite lookup_insert_eq.
    rewrite insert_insert_eq.
    by replace (s ∖ {[modifier]} ∖ {[modifier]}) with (s ∖ {[modifier]}) by set_solver.
  - by rewrite set_discard_missing.
Qed.

(** X6. [remove_modifier] without a schema id runs over the ids the
    registry lists.  When each of them has its entry, the modifier leaves
    the set of every listed id and the other entries are not touched. *)
Theorem remove_modifier_everywhere st modifier :
  (∀ id, id ∈ schema_ids (schemas st) → is_Some (_modifiers st !! id)) →
  ∃ tbl : table,
    remove_modifier None modifier st = (with_modifiers tbl st, Return tt) ∧
    ∀ k, tbl !! k =
         if bool_decide (k ∈ schema_ids (schemas st))
         then (λ s, s ∖ {[modifier]}) <$> _modifiers st !! k
         else _modifiers st !! k.
Proof.
  intros Hall. unfold remove_modifier. cbn.
  unfold mbind at 1, M_bind at 1. unfold gets at 1.
  destruct (for_each_update update_modifiers _modifiers with_modifiers
              (λ key, set_discard key modifier) (λ s, s ∖ {[modifier]})
              (schema_ids (schemas st))) with (st := st)
    as (tbl & Hloop & Htbl);
    [done|done|done|by intros []
    |intros k tbl s Hk; by apply set_discard_lookup
    |intros s; set_solver
    |done|].
  exists tbl. split; [|done]. rewrite <-Hloop.
  apply for_each_ext. intros id st0. apply update_modifiers_discard_twice.
Qed.

(** X7. When the registry lists an id that has no entry in
    [self._modifiers] (a schema registered on the registry directly),
    [remove_modifier] without a schema id raises [KeyError] for such an id. *)
Theorem remove_modifier_everywhere_missing st modifier :
  (∃ id, id ∈ schema_ids (schemas st) ∧ _modifiers st !! id = None) →
  ∃ st' id',
    remove_modifier None modifier st = (st', Raise (KeyError (Some id'))) ∧
    id' ∈ schema_ids (schemas st) ∧ _modifiers st !! id' = None.
Proof.
  intros Hbad. unfold remove_modifier. cbn.
  unfold mbind at 1, M_bind at 1. unfold gets at 1.
  destruct (for_each_update_missing update_modifiers _modifiers with_modifiers
              (λ key, set_discard key modifier) (λ s, s ∖ {[modifier]})
              (schema_ids (schemas st))) with (st := st)
    as (st' & id' & Hloop & Hin & Hnone);
    [done|done
    |intros k tbl s Hk; by apply set_discard_lookup
    |intros k tbl Hk; by apply set_discard_missing
    |done|].
  exists st', id'. split; [|done]. rewrite <-Hloop.
  apply for_each_ext. intros id st0. apply update_modifiers_discard_twice.
Qed.

(** X8. [add_listener] without a schema id and with [modified=True] adds a
    valid listener to the set of modified events of every id the registry
    lists, provided each of them has its entry, and touches no other entry. *)
Theorem add_listener_modified_everywhere st listener call :
  object_at listener = Callable (Some listener_signature) call →
  (∀ id, id ∈ schema_ids (schemas st) → is_Some (_modified_listeners st !! id)) →
  ∃ tbl : table,
    add_listener object_at true None listener st
    = (with_modified_listeners tbl st, Return tt) ∧
    ∀ k, tbl !! k =
         if bool_decide (k ∈ schema_ids (schemas st))
         then (λ s, s ∪ {[listener]}) <$> _modified_listeners st !! k
         else _modified_listeners st !! k.
Proof. apply add_listener_modified_all. Qed.

Lemma remove_listener_loop listener ids : ∀ st,
  (∀ id, id ∈ ids → is_Some (_modified_listeners st !! id) ∧
                    is_Some (_unmodified_listeners st !! id)) →
  ∃ t1 t2 : table,
    for_each ids (λ schema_id,
      update_modified_listeners (set_discard (Some schema_id) listener);;
      update_unmodified_listeners (set_discard (Some schema_id) listener)) st
    = (with_unmodified_listeners t2 (with_modified_listeners t1 st), Return tt) ∧
    (∀ k, t1 !! k = if bool_decide (k ∈ ids)
                    then (λ s, s ∖ {[listener]}) <$> _modified_listeners st !! k
                    else _modified_listeners st !! k) ∧
    (∀ k, t2 !! k = if bool_decide (k ∈ ids)
                    then (λ s, s ∖ {[listener]}) <$> _unmodified_listeners st !! k
                    else _unmodified_listeners st !! k).
Proof.
  induction ids as [|id ids IH]; intros st Hall; cbn.
  - exists (_modified_listeners st), (_unmodified_listeners st).
    split; [by destruct st|done].
  - destruct (Hall id) as [[s1 Hs1] [s2 Hs2]]; [by left|].
    unfold mbind at 1, M_bind at 1. unfold mbind at 1, M_bind at 1.
    unfold update_modified_listeners at 1.
    rewrite (set_discard_lookup _ _ _ s1) by done.
    unfold update_unmodified_listeners at 1. cbn.
    rewrite (set_discard_lookup _ _ _ s2) by done.
    set (st1 := with_unmodified_listeners _ _).
    destruct (IH st1) as (t1 & t2 & Hloop & Ht1 & Ht2).
    { intros id' Hid'. cbn. rewrite !lookup_insert.
      case_decide; [by split|]. apply Hall. by right. }
    exists t1, t2. split; [by rewrite Hloop|].
    assert (Hset : ∀ s : gset obj, s ∖ {[listener]} ∖ {[listener]} = s ∖ {[listener]})
      by set_solver.
    split; intros k; [rewrite Ht1|rewrite Ht2]; cbn; rewrite lookup_insert;
      (destruct (decide (id = k)) as [->|Hne];
       [ rewrite (bool_decide_eq_true_2 (k ∈ k :: ids)) by left;
         rewrite ?Hs1, ?Hs2; cbn; case_bool_decide; cbn; by rewrite ?Hset
       | case_bool_decide as Hk;
         [ by rewrite bool_decide_eq_true_2 by by right
         | rewrite bool_decide_eq_false_2; [done|set_solver] ] ]).
Qed.

(** X9. [remove_listener] without a schema id takes the listener out of
    both listener sets of every id the registry lists, when each has its
    entries; the modifiers and the entries of other ids stay. *)
Theorem remove_listener_everywhere st listener :
  (∀ id, id ∈ schema_ids (schemas st) →
         is_Some (_modified_listeners st !! id) ∧
         is_Some (_unmodified_listeners st !! id)) →
  ∃ t1 t2 : table,
    remove_listener None listener st
    = (with_unmodified_listeners t2 (with_modified_listeners t1 st), Return tt) ∧
    (∀ k, t1 !! k = if bool_decide (k ∈ schema_ids (schemas st))
                    then (λ s, s ∖ {[listener]}) <$> _modified_listeners st !! k
                    else _modified_listeners st !! k) ∧
    (∀ k, t2 !! k = if bool_decide (k ∈ schema_ids (schemas st))
                    then (λ s, s ∖ {[listener]}) <$> _unmodified_listeners st !! k
                    else _unmodified_listeners st !! k).
Proof.
  intros Hall. unfold remove_listener. cbn.
  unfold mbind at 1, M_bind at 1. unfold gets at 1.
  by apply remove_listener_loop.
Qed.

(** X10. Removing from a schema what is not registered for it is not an
    error and changes nothing, for a modifier as for a listener. *)
Theorem remove_absent_changes_nothing st schema_id modifier listener s s1 s2 :
  schema_id ≠ "" →
  _modifiers st !! schema_id = Some s →
  _modified_listeners st !! schema_id = Some s1 →
  _unmodified_listeners st !! schema_id = Some s2 →
  modifier ∉ s → listener ∉ s1 → listener ∉ s2 →
  remove_modifier (Some schema_id) modifier st = (st, Return tt) ∧
  remove_listener (Some schema_id) listener st = (st, Return tt).
Proof.
  intros Hid Hs Hs1 Hs2 Hm Hl1 Hl2. split.
  - rewrite (remove_modifier_one _ _ _ s) by done.
    replace (s ∖ {[modifier]}) with s by set_solver.
    rewrite insert_id by done. by destruct st.
  - rewrite (remove_listener_one _ _ _ s1 s2) by done.
    replace (s1 ∖ {[listener]}) with s1 by set_solver.
    replace (s2 ∖ {[listener]}) with s2 by set_solver.
    rewrite !insert_id by done. by destruct st.
Qed.

(** ** One schema at a time *)

(** The entries of every id but [schema_id] are in [st'] what they are in
    [st]. *)
Definition same_elsewhere schema_id st st' : Prop :=
  ∀ k, k ≠ schema_id →
    _modifiers st' !! k = _modifiers st !! k ∧
    _modified_listeners st' !! k = _modified_listeners st !! k ∧
    _unmodified_listeners st' !! k = _unmodified_listeners st !! k.

Lemma set_add_elsewhere schema_id x (tbl tbl' : table) k :
  set_add (Some schema_id) x tbl = Return tbl' → k ≠ schema_id → tbl' !! k = tbl !! k.
Proof.
  unfold set_add. destruct (tbl !! schema_id); [|done].
  intros [= <-] Hk. by rewrite lookup_insert_ne.
Qed.

Lemma set_discard_elsewhere schema_id x (tbl tbl' : table) k :
  set_discard (Some schema_id) x tbl = Return tbl' → k ≠ schema_id →
  tbl' !! k = tbl !! k.
Proof.
  unfold set_discard. destruct (tbl !! schema_id); [|done].
  intros [= <-] Hk. by rewrite lookup_insert_ne.
Qed.

Lemma update_modifiers_elsewhere schema_id st0 (f : table → res table) st st' r :
  (∀ tbl tbl' k, f tbl = Return tbl' → k ≠ schema_id → tbl' !! k = tbl !! k) →
  update_modifiers f st = (st', r) →
  same_elsewhere schema_id st0 st → same_elsewhere schema_id st0 st'.
Proof.
  intros Hf. unfold update_modifiers.
  destruct (f (_modifiers st)) as [tbl'|e] eqn:Hft; intros [= <- <-]; [|done].
  intros Hsame k Hk. destruct (Hsame k Hk) as (H1 & H2 & H3). cbn.
  by rewrite (Hf _ _ _ Hft Hk).
Qed.

Lemma update_modified_listeners_elsewhere schema_id st0 (f : table → res table) st st' r :
  (∀ tbl tbl' k, f tbl = Return tbl' → k ≠ schema_id → tbl' !! k = tbl !! k) →
  update_modified_listeners f st = (st', r) →
  same_elsewhere schema_id st0 st → same_elsewhere schema_id st0 st'.
Proof.
  intros Hf. unfold update_modified_listeners.
  destruct (f (_modified_listeners st)) as [tbl'|e] eqn:Hft; intros [= <- <-]; [|done].
  intros Hsame k Hk. destruct (Hsame k Hk) as (H1 & H2 & H3). cbn.
  by rewrite (Hf _ _ _ Hft Hk).
Qed.

Lemma update_unmodified_listeners_elsewhere schema_id st0 (f : table → res table)
    st st' r :
  (∀ tbl tbl' k, f tbl = Return tbl' → k ≠ schema_id → tbl' !! k = tbl !! k) →
  update_unmodified_listeners f st = (st', r) →
  same_elsewhere schema_id st0 st → same_elsewhere schema_id st0 st'.
Proof.
  intros Hf. unfold update_unmodified_listeners.
  destruct (f (_unmodified_listeners st)) as [tbl'|e] eqn:Hft; intros [= <- <-]; [|done].
  intros Hsame k Hk. destruct (Hsame k Hk) as (H1 & H2 & H3). cbn.
  by rewrite (Hf _ _ _ Hft Hk).
Qed.

Lemma add_listener_elsewhere st0 modified schema_id listener st st' r :
  schema_id ≠ "" →
  add_listener object_at modified (Some schema_id) listener st = (st', r) →
  same_elsewhere schema_id st0 st → same_elsewhere schema_id st0 st'.
Proof.
  intros Hid. unfold add_listener. destruct (negb _); [by intros [= <- <-]|].
  apply bind_preserves.
  { unfold inspect_signature. intros st1 r1.
    destruct (object_at listener) as [|[sig|] call]; by intros [= <- <-]. }
  intros sig st1 st2 r2. destruct (String.eqb _ _); [|by intros [= <- <-]].
  rewrite truthy_Some by done. destruct modified.
  - apply update_modified_listeners_elsewhere. intros ???. apply set_add_elsewhere.
  - apply bind_preserves.
    + intros ??. apply update_unmodified_listeners_elsewhere.
      intros ???. apply set_add_elsewhere.
    + intros _ st3 st4 r4. apply bind_preserves; [by intros ?? [= <- <-]|].
      intros ids. apply for_each_preserves. intros id st5 st6 r6.
      destruct (_ || _); [|by intros [= <- <-]].
      apply update_unmodified_listeners_elsewhere. intros ???. apply set_add_elsewhere.
Qed.

Lemma add_modifier_elsewhere st0 schema_id modifier st st' r :
  schema_id ≠ "" →
  add_modifier object_at (Some schema_id) modifier st = (st', r) →
  same_elsewhere schema_id st0 st → same_elsewhere schema_id st0 st'.
Proof.
  intros Hid. unfold add_modifier. destruct (negb _); [by intros [= <- <-]|].
  apply bind_preserves.
  { unfold inspect_signature. intros st1 r1.
    destruct (object_at modifier) as [|[sig|] call]; by intros [= <- <-]. }
  intros sig st1 st2 r2. destruct (String.eqb _ _); [|by intros [= <- <-]].
  rewrite truthy_Some by done.
  apply update_modifiers_elsewhere. intros ???. apply set_add_elsewhere.
Qed.

Lemma remove_modifier_elsewhere st0 schema_id modifier st st' r :
  schema_id ≠ "" →
  remove_modifier (Some schema_id) modifier st = (st', r) →
  same_elsewhere schema_id st0 st → same_elsewhere schema_id st0 st'.
Proof.
  intros Hid. unfold remove_modifier. rewrite truthy_Some by done.
  apply update_modifiers_elsewhere. intros ???. apply set_discard_elsewhere.
Qed.

Lemma remove_listener_elsewhere st0 schema_id listener st st' r :
  schema_id ≠ "" →
  remove_listener (Some schema_id) listener st = (st', r) →
  same_elsewhere schema_id st0 st → same_elsewhere schema_id st0 st'.
Proof.
  intros Hid. unfold remove_listener. rewrite truthy_Some by done.
  apply bind_preserves.
  - intros ??. apply update_modified_listeners_elsewhere.
    intros ???. apply set_discard_elsewhere.
  - intros _ ???. apply update_unmodified_listeners_elsewhere.
    intros ???. apply set_discard_elsewhere.
Qed.

(** X11. Given a non-empty schema id, [add_modifier], [remove_modifier],
    [add_listener] and [remove_listener] leave the sets of every other schema
    id as they are, whether they return or raise. *)
Theorem schema_operations_are_isolated st schema_id modifier listener modified :
  schema_id ≠ "" →
  same_elsewhere schema_id st (add_modifier object_at (Some schema_id) modifier st).1 ∧
  same_elsewhere schema_id st (remove_modifier (Some schema_id) modifier st).1 ∧
  same_elsewhere schema_id st
    (add_listener object_at modified (Some schema_id) listener st).1 ∧
  same_elsewhere schema_id st (remove_listener (Some schema_id) listener st).1.
Proof.
  intros Hid. assert (Hrefl : same_elsewhere schema_id st st) by done.
  split; [|split; [|split]].
  - eapply add_modifier_elsewhere; eauto using surjective_pairing.
  - eapply remove_modifier_elsewhere; eauto using surjective_pairing.
  - eapply add_listener_elsewhere; eauto using surjective_pairing.
  - eapply remove_listener_elsewhere; eauto using surjective_pairing.
Qed.

(** ** Registration *)

(** X12. The three tables always have the same schema ids as keys: a
    logger that has this property keeps it through [register_event_schema],
    [add_modifier], [remove_modifier], [add_listener], [remove_listener] and
    [emit], whatever their arguments and whether they return or raise. *)
Theorem methods_keep_tables_aligned
    st (source : Src) target modifier listener modified schema_id data timestamp_override :
  tables_aligned st →
  tables_aligned (register_event_schema source st).1 ∧
  tables_aligned (add_modifier object_at target modifier st).1 ∧
  tables_aligned (remove_modifier target modifier st).1 ∧
  tables_aligned (add_listener object_at modified target listener st).1 ∧
  tables_aligned (remove_listener target listener st).1 ∧
  tables_aligned (emit object_at schema_id data timestamp_override st).1.
Proof.
  intros Hal. split; [|split; [|split; [|split; [|split]]]].
  - eapply register_event_schema_aligned; eauto using surjective_pairing.
  - eapply add_modifier_aligned; eauto using surjective_pairing.
  - eapply remove_modifier_aligned; eauto using surjective_pairing.
  - eapply add_listener_aligned; eauto using surjective_pairing.
  - eapply remove_listener_aligned; eauto using surjective_pairing.
  - by apply emit_aligned.
Qed.

Lemma register_event_schema_accepted (source : Src) st r' es :
  register (schemas st) source = (r', Return es) →
  register_event_schema source st =
  (with_unmodified_listeners (<[EventSchema.id es := ∅]> (_unmodified_listeners st))
     (with_modified_listeners (<[EventSchema.id es := ∅]> (_modified_listeners st))
        (with_modifiers (<[EventSchema.id es := ∅]> (_modifiers st))
           (with_schemas r' st))),
   Return tt).
Proof. intros Hreg. unfold register_event_schema. run. by rewrite Hreg. Qed.

(** X13. Once [register_event_schema] has returned for a schema, emitting
    an event of that schema on a logger without handlers is the fast exit:
    [emit] returns [None] and changes nothing, where before the registration
    the same call found no entry to look at. *)
Theorem registered_schema_takes_fast_exit
    st (source : Src) r' es data timestamp_override :
  register (schemas st) source = (r', Return es) →
  no_handlers (handlers st) = true →
  emit object_at (EventSchema.id es) data timestamp_override
    (register_event_schema source st).1
  = ((register_event_schema source st).1, Return None).
Proof.
  intros Hreg Hh. rewrite (register_event_schema_accepted _ _ r' es) by done. cbn.
  apply emit_fast_exit; cbn; [done|by rewrite lookup_insert_eq..].
Qed.

(** X14. Once [register_event_schema] has returned for a schema with a
    non-empty id, that id is accepted by [add_modifier] and [add_listener]:
    a valid modifier, or listener, given right after the registration is the
    only member of its set. *)
Theorem registered_schema_accepts_callbacks
    st (source : Src) r' es modifier listener mcall lcall modified :
  register (schemas st) source = (r', Return es) →
  EventSchema.id es ≠ "" →
  object_at modifier = Callable (Some modifier_signature) mcall →
  object_at listener = Callable (Some listener_signature) lcall →
  (∃ st',
     (register_event_schema source;;
      add_modifier object_at (Some (EventSchema.id es)) modifier) st = (st', Return tt) ∧
     _modifiers st' !! EventSchema.id es = Some {[modifier]}) ∧
  (∃ st',
     (register_event_schema source;;
      add_listener object_at modified (Some (EventSchema.id es)) listener) st
     = (st', Return tt) ∧
     (if modified then _modified_listeners st' else _unmodified_listeners st')
       !! EventSchema.id es = Some {[listener]} ∧
     (if modified then _unmodified_listeners st' else _modified_listeners st')
       !! EventSchema.id es = Some ∅).
Proof.
  intros Hreg Hid Hm Hl. split.
  - unfold mbind, M_bind. rewrite (register_event_schema_accepted _ _ r' es) by done.
    rewrite (add_modifier_one _ _ _ _ mcall ∅) by (done || by cbn; rewrite lookup_insert_eq).
    eexists. split; [done|]. cbn. rewrite lookup_insert_eq. f_equal. set_solver.
  - unfold mbind, M_bind. rewrite (register_event_schema_accepted _ _ r' es) by done.
    destruct modified.
    + rewrite (add_listener_modified_one _ _ _ _ lcall ∅)
        by (done || by cbn; rewrite lookup_insert_eq).
      eexists. split; [done|]. cbn. rewrite !lookup_insert_eq.
      split; [f_equal; set_solver|done].
    + rewrite (add_listener_unmodified_one _ _ _ _ lcall ∅)
        by (done || by cbn; rewrite lookup_insert_eq).
      eexists. split; [done|]. cbn. rewrite !lookup_insert_eq.
      split; [f_equal; set_solver|done].
Qed.

End Tables.

(** * Further properties of [emit] *)

Section Emission.
Context {R Src datetime : Type}.
Context `{!SchemaRegistry R Src} `{!Datetime datetime}.
Context (object_at : obj → pyobject).

Implicit Types (st : State (R:=R) (datetime:=datetime)).
Implicit Types (schema_id : string) (data l : loc) (schema : EventSchema.t).
Implicit Types (modifier listener : obj) (target : option string).

#[local] Set Warnings "-clear-no-such-hyp".

Ltac run :=
  unfold mbind, M_bind, mret, M_ret, gets, modify, lift, raise, subscript,
    deref, store, alloc; cbn.

(** X15. [emit] never changes the handlers, the registry or any of the
    three callback tables, whatever it is given and however it ends. *)
Theorem emit_leaves_logger_alone st schema_id data timestamp_override :
  same_logger st (emit object_at schema_id data timestamp_override st).1.
Proof. apply emit_same_logger. Qed.

(** X16. If a call of [emit] has handed anything to the logger, or has
    scheduled any listener, then the schema was found, the modifiers
    returned, and the data they returned passed [validate_event]. *)
Theorem emit_side_effects_imply_valid st schema_id data timestamp_override st' r :
  emit object_at schema_id data timestamp_override st = (st', r) →
  logged st' ≠ logged st ∨ _active_listeners st' ≠ _active_listeners st →
  ∃ schema st1 modified_data,
    get (schemas st) schema_id = Return schema ∧
    apply_modifiers object_at schema schema_id data st = (st1, Return modified_data) ∧
    validate_event (schemas st) schema_id (heap st1 !!! modified_data) = Return tt.
Proof. apply emit_records_only_validated. Qed.

(** X17. When nothing raises, [emit] hands exactly one capsule to the
    logger and then schedules exactly one task per registered listener of
    the schema, after the tasks already active: the listeners of modified
    events on the object the modifiers returned, then the listeners of
    unmodified events on the caller's own object. *)
Theorem emit_schedules_listeners
    st schema_id data timestamp_override schema st1 modified_data ml ul :
  nothing_listening schema_id st = (st, Return false) →
  contains (schemas st) schema_id = true →
  get (schemas st) schema_id = Return schema →
  apply_modifiers object_at schema schema_id data st = (st1, Return modified_data) →
  validate schema schema_id data modified_data st1 = (st1, Return tt) →
  _modified_listeners st !! schema_id = Some ml →
  _unmodified_listeners st !! schema_id = Some ul →
  emit object_at schema_id data timestamp_override st =
  (with_active_listeners
     (_active_listeners st ++ tasks_for ml schema_id modified_data
        ++ tasks_for ul schema_id data)
     (with_logged
        (logged st ++
           [make_capsule schema_id schema (default (clock st) timestamp_override)
              (heap st1 !!! modified_data)]) st1),
   Return (Some (make_capsule schema_id schema (default (clock st) timestamp_override)
                   (heap st1 !!! modified_data)))).
Proof. apply emit_records. Qed.

(** The modifier chain of a schema without modifiers is the copy. *)
Lemma apply_modifiers_none schema schema_id data st :
  _modifiers st !! EventSchema.id schema = Some ∅ →
  apply_modifiers object_at schema schema_id data st
  = (with_heap (heap st ++ [heap st !!! data]) st, Return (length (heap st))).
Proof.
  intros Hm. unfold apply_modifiers, deepcopy. run. rewrite Hm. cbn.
  by rewrite elements_empty.
Qed.

Lemma lookup_total_snoc (h : list dict) (d : dict) : (h ++ [d]) !!! length h = d.
Proof. rewrite list_lookup_total_alt. by rewrite list_lookup_middle. Qed.

(** X18. For a schema without modifiers the capsule is built from the
    caller's data as it is: outside the four reserved keys the recorded and
    returned capsule has the fields of the caller's dictionary, each with its
    value, and no others. *)
Theorem emit_without_modifiers_records_input
    st schema_id data timestamp_override st' capsule schema :
  emit object_at schema_id data timestamp_override st = (st', Return (Some capsule)) →
  get (schemas st) schema_id = Return schema →
  _modifiers st !! EventSchema.id schema = Some ∅ →
  capsule = make_capsule schema_id schema (default (clock st) timestamp_override)
              (heap st !!! data) ∧
  ∀ k, k ∉ reserved_keys → capsule !! k = (heap st !!! data) !! k.
Proof.
  intros (schema' & st1 & l & _ & Hget' & Hm' & _ & -> & _)%emit_returns_capsule
    Hget Hnone.
  rewrite Hget in Hget'. injection Hget' as <-.
  rewrite apply_modifiers_none in Hm' by done. injection Hm' as <- <-. cbn.
  rewrite lookup_total_snoc. split; [done|].
  intros k. apply make_capsule_other.
Qed.

(** ** Unregistered ids, failing modifiers, missing entries *)

Lemma emit_unregistered_handlers st schema_id data timestamp_override :
  no_handlers (handlers st) = false →
  contains (schemas st) schema_id = false →
  emit object_at schema_id data timestamp_override st
  = ((warn (not_registered_text schema_id) st).1, Return None).
Proof.
  intros Hh Hc. unfold emit. unfold mbind at 1, M_bind at 1.
  rewrite nothing_listening_handlers by done. run. rewrite Hc. cbn.
  unfold warn. by destruct (bool_decide _).
Qed.

Lemma warn_again text st :
  warn text (warn text st).1 = ((warn text st).1, Return tt).
Proof.
  unfold warn. destruct (bool_decide (text ∈ onceregistry st)) eqn:Hin; cbn.
  - by rewrite Hin.
  - rewrite bool_decide_eq_true_2; [done|set_solver].
Qed.

(** X19. On a logger with a handler, the first [emit] for a schema id the
    registry does not hold makes the warning known to the ["once"] filter;
    any later [emit] for that id, with whatever data, returns [None] and
    changes nothing at all: the warning is not shown again. *)
Theorem emit_unregistered_warns_once
    st schema_id data timestamp_override data' timestamp_override' :
  no_handlers (handlers st) = false →
  contains (schemas st) schema_id = false →
  not_registered_text schema_id
    ∈ onceregistry (emit object_at schema_id data timestamp_override st).1 ∧
  emit object_at schema_id data' timestamp_override'
    (emit object_at schema_id data timestamp_override st).1
  = ((emit object_at schema_id data timestamp_override st).1, Return None).
Proof.
  intros Hh Hc. rewrite (emit_unregistered_handlers st) by done. cbn.
  set (text := not_registered_text schema_id).
  assert (Hsame : handlers (warn text st).1 = handlers st ∧
                  schemas (warn text st).1 = schemas st).
  { unfold warn. by destruct (bool_decide _). }
  destruct Hsame as [Hh' Hs']. split.
  - unfold warn. case_bool_decide; cbn; [done|set_solver].
  - rewrite emit_unregistered_handlers by by rewrite ?Hh', ?Hs'.
    fold text. by rewrite warn_again.
Qed.

(** X20. An exception raised by a modifier comes out of [emit] as it is:
    validation is not reached, nothing is handed to the logger, no listener
    is scheduled, and the objects that existed before the call are as they
    were. *)
Theorem emit_modifier_error_aborts st schema_id data timestamp_override schema st1 e :
  nothing_listening schema_id st = (st, Return false) →
  contains (schemas st) schema_id = true →
  get (schemas st) schema_id = Return schema →
  apply_modifiers object_at schema schema_id data st = (st1, Raise e) →
  emit object_at schema_id data timestamp_override st = (st1, Raise e) ∧
  logged st1 = logged st ∧
  _active_listeners st1 = _active_listeners st ∧
  heap st `prefix_of` heap st1.
Proof.
  intros Hg Hc Hget Hm. rewrite (emit_registered _ _ _ _ _ schema) by done.
  rewrite Hm. apply apply_modifiers_frame in Hm as (Ho & Hp & _).
  apply only_heap_fields in Ho as (_ & _ & _ & _ & _ & Ha & _ & _ & _ & Hl).
  done.
Qed.

(** X21. A schema the registry holds but whose id has no entry in
    [self._modifiers] (it was registered on the registry, not through
    [register_event_schema]) cannot be emitted on a logger with handlers:
    [emit] raises [KeyError] with that id once the copy is made, and records
    nothing. *)
Theorem emit_schema_without_entry_raises st schema_id data timestamp_override schema :
  no_handlers (handlers st) = false →
  contains (schemas st) schema_id = true →
  get (schemas st) schema_id = Return schema →
  _modifiers st !! EventSchema.id schema = None →
  emit object_at schema_id data timestamp_override st
  = (with_heap (heap st ++ [heap st !!! data]) st,
     Raise (KeyError (Some (EventSchema.id schema)))).
Proof.
  intros Hh Hc Hget Hnone.
  rewrite (emit_registered _ _ _ _ _ schema)
    by (done || by apply nothing_listening_handlers).
  unfold apply_modifiers, deepcopy. run. by rewrite Hnone.
Qed.

(** ** Which listeners are scheduled *)

(** A task of [emit] for [schema_id]: a listener of modified events of that
    schema on an object made during the call, or a listener of unmodified
    events of that schema on the caller's object. *)
Definition task_of_emit st schema_id data (t : Task) : Prop :=
  task_schema_id t = schema_id ∧
  ((task_listener t ∈ default ∅ (_modified_listeners st !! schema_id) ∧
    length (heap st) ≤ task_data t) ∨
   (task_listener t ∈ default ∅ (_unmodified_listeners st !! schema_id) ∧
    task_data t = data)).

Lemma elem_of_tasks_for (s : gset obj) schema_id data (t : Task) :
  t ∈ tasks_for s schema_id data →
  task_schema_id t = schema_id ∧ task_listener t ∈ s ∧ task_data t = data.
Proof.
  unfold tasks_for. intros (listener & -> & Hin%elem_of_elements)%list_elem_of_fmap.
  done.
Qed.

(** Whatever [emit] does, the tasks it leaves are the tasks it found
    followed by tasks of its own schema id. *)
Lemma emit_scheduled st schema_id data timestamp_override st' r :
  emit object_at schema_id data timestamp_override st = (st', r) →
  ∃ new, _active_listeners st' = _active_listeners st ++ new ∧
         ∀ t, t ∈ new → task_of_emit st schema_id data t.
Proof.
  assert (Hnone : ∀ st0, _active_listeners st0 = _active_listeners st →
    ∃ new, _active_listeners st0 = _active_listeners st ++ new ∧
           ∀ t, t ∈ new → task_of_emit st schema_id data t).
  { intros st0 Ha. exists []. rewrite app_nil_r. split; [done|].
    intros t Ht. by apply elem_of_nil in Ht. }
  destruct (nothing_listening_result st schema_id) as [[[|]|e] Hg].
  - unfold emit. unfold mbind at 1, M_bind at 1. rewrite Hg. cbn.
    intros [= <- <-]. by apply Hnone.
  - destruct (contains (schemas st) schema_id) eqn:Hc.
    + destruct (get (schemas st) schema_id) as [schema|e] eqn:Hget.
      * rewrite (emit_registered _ _ _ _ _ schema) by done.
        destruct (apply_modifiers object_at schema schema_id data st) as [st1 [l|e]] eqn:Hm;
          pose proof Hm as (Ho & _ & Hl)%apply_modifiers_frame;
          apply only_heap_fields in Ho as (_ & _ & _ & Hml & Hul & Ha & _).
        2:{ intros [= <- <-]. by apply Hnone. }
        specialize (Hl l eq_refl).
        pose proof (validate_state schema schema_id data l st1) as Hst.
        destruct (validate schema schema_id data l st1) as [st2 [[]|e]] eqn:Hv;
          cbn in Hst; subst st2.
        2:{ intros [= <- <-]. by apply Hnone. }
        unfold record_and_dispatch. unfold mbind at 1, M_bind at 1.
        assert (Hts : (match timestamp_override with
                       | Some t => mret t
                       | None => gets clock
                       end : M datetime) st1
                      = (st1, Return (default (clock st1) timestamp_override))).
        { by destruct timestamp_override. }
        rewrite Hts. run. unfold logger_info, modify. cbn. rewrite Hml.
        destruct (_modified_listeners st !! schema_id) as [ml|] eqn:Hlm; cbn.
        2:{ intros [= <- <-]. by apply Hnone. }
        rewrite for_each_create_task. cbn. rewrite Hul.
        fold (tasks_for ml schema_id l).
        assert (Hmod : ∀ t, t ∈ tasks_for ml schema_id l →
                            task_of_emit st schema_id data t).
        { intros t (? & ? & Hd)%elem_of_tasks_for. split; [done|]. left.
          by rewrite Hlm, Hd. }
        destruct (_unmodified_listeners st !! schema_id) as [ul|] eqn:Hlu; cbn.
        2:{ intros [= <- <-]. cbn. rewrite Ha. by eexists. }
        rewrite for_each_create_task. cbn. intros [= <- <-]. cbn.
        fold (tasks_for ul schema_id data). rewrite Ha, <-(assoc_L (++)).
        eexists. split; [done|]. intros t [Ht|Ht]%elem_of_app; [by apply Hmod|].
        apply elem_of_tasks_for in Ht as (? & ? & ?). split; [done|]. right.
        by rewrite Hlu.
      * unfold emit. unfold mbind at 1, M_bind at 1. rewrite Hg. run.
        rewrite Hc, Hget. cbn. intros [= <- <-]. by apply Hnone.
    + unfold emit. unfold mbind at 1, M_bind at 1. rewrite Hg. run. rewrite Hc. cbn.
      unfold warn. destruct (bool_decide _); cbn; intros [= <- <-]; by apply Hnone.
  - unfold emit. unfold mbind at 1, M_bind at 1. rewrite Hg. cbn.
    intros [= <- <-]. by apply Hnone.
Qed.

(** X22. [emit] only ever adds tasks, and only for listeners registered
    under the schema id it is given: a listener of another schema is never
    scheduled by it, the listeners of modified events never get the caller's
    own object, and the listeners of unmodified events get no other. *)
Theorem emit_schedules_only_own_listeners st schema_id data timestamp_override st' r :
  data < length (heap st) →
  emit object_at schema_id data timestamp_override st = (st', r) →
  ∃ new,
    _active_listeners st' = _active_listeners st ++ new ∧
    ∀ t, t ∈ new →
      task_schema_id t = schema_id ∧
      ((task_listener t ∈ default ∅ (_modified_listeners st !! schema_id) ∧
        task_data t ≠ data) ∨
       (task_listener t ∈ default ∅ (_unmodified_listeners st !! schema_id) ∧
        task_data t = data)).
Proof.
  intros Hdata (new & Ha & Hnew)%emit_scheduled. exists new. split; [done|].
  intros t [Hid [[Hl Hd]|[Hl Hd]]]%Hnew; (split; [done|]); [left|right]; split;
    try done; lia.
Qed.

(** X23. After [remove_listener] with the schema id, [emit] for that
    schema schedules no task for the listener, in whichever of the two sets it
    had been. *)
Theorem removed_listener_is_not_scheduled
    st schema_id listener s1 s2 data timestamp_override t :
  schema_id ≠ "" →
  _modified_listeners st !! schema_id = Some s1 →
  _unmodified_listeners st !! schema_id = Some s2 →
  t ∈ _active_listeners
        (emit object_at schema_id data timestamp_override
           (remove_listener (Some schema_id) listener st).1).1 →
  t ∈ _active_listeners st ∨ task_listener t ≠ listener.
Proof.
  intros Hid Hs1 Hs2. rewrite (remove_listener_one _ _ _ s1 s2) by done. cbn.
  set (st1 := with_unmodified_listeners _ _).
  destruct (emit object_at schema_id data timestamp_override st1) as [st' r] eqn:Hemit.
  apply emit_scheduled in Hemit as (new & Ha & Hnew). cbn. rewrite Ha.
  intros [Hold|Ht]%elem_of_app; [by left|right].
  apply Hnew in Ht as [_ [[Hl _]|[Hl _]]]; revert Hl; cbn;
    rewrite lookup_insert_eq; cbn; set_solver.
Qed.

End Emission.

(** * Properties of the handler methods *)

Section HandlerProperties.
Context {R Src datetime L : Type}.
Context `{!SchemaRegistry R Src} `{!Datetime datetime} `{!PyLogger L}.
Context (object_at : obj → pyobject).

Implicit Types (x : Logging (R:=R) (datetime:=datetime) (L:=L)).
Implicit Types (hs : list obj) (handler h : obj).

#[local] Set Warnings "-clear-no-such-hyp".

Lemma list_remove_snoc h hs : h ∉ hs → list_remove h (hs ++ [h]) = hs.
Proof.
  induction hs as [|y hs IH]; intros Hh; cbn.
  - by rewrite decide_True.
  - apply not_elem_of_cons in Hh as [Hne Hh].
    rewrite decide_False by done. by rewrite IH.
Qed.

Lemma elem_of_list_remove h h' hs : h' ∈ list_remove h hs → h' ∈ hs.
Proof.
  induction hs as [|y hs IH]; cbn; [done|].
  case_decide; [by right|]. intros [->|Hin]%elem_of_cons; [by left|].
  right. by apply IH.
Qed.

Lemma elem_of_list_remove_NoDup h h' hs :
  NoDup hs → h' ∈ list_remove h hs ↔ h' ∈ hs ∧ h' ≠ h.
Proof.
  induction hs as [|y hs IH]; intros Hnd; cbn.
  - split; [by intros ?%elem_of_nil|by intros [?%elem_of_nil _]].
  - apply NoDup_cons in Hnd as [Hy Hnd]. case_decide as Hhy.
    + subst y. split.
      * intros Hin. split; [by right|]. by intros ->.
      * intros [[->|Hin]%elem_of_cons Hne]; done.
    + rewrite !elem_of_cons, IH by done. split.
      * intros [->|[Hin Hne]]; [by split; [left|]|by split; [right|]].
      * intros [[->|Hin] Hne]; [by left|by right].
Qed.

Lemma with_handlers_id (st : State (R:=R) (datetime:=datetime)) hs :
  handlers st = Some hs → with_handlers (Some hs) st = st.
Proof. destruct st. cbn. by intros ->. Qed.

(** The handlers trait after [register_handler]. *)
Lemma register_handler_handlers handler x hs :
  handlers (self x) = Some hs →
  (register_handler handler x).2 = Return tt ∧
  handlers (self (register_handler handler x).1)
  = Some (if bool_decide (handler ∈ hs) then hs else hs ++ [handler]).
Proof.
  intros Hhs. unfold register_handler. rewrite Hhs.
  by case_bool_decide.
Qed.

(** X24. [register_handler] puts the handler on the list of the trait
    unless it is there already: afterwards the handler is on the list, a list
    without repetition stays so, and registering the same handler again
    changes the list no more. *)
Theorem register_handler_is_idempotent handler x hs :
  handlers (self x) = Some hs →
  ∃ hs',
    handlers (self (register_handler handler x).1) = Some hs' ∧
    handler ∈ hs' ∧
    (∀ h, h ∈ hs → h ∈ hs') ∧
    (NoDup hs → NoDup hs') ∧
    handlers (self (register_handler handler (register_handler handler x).1).1)
    = Some hs'.
Proof.
  intros Hhs. destruct (register_handler_handlers handler x hs Hhs) as [_ H1].
  eexists. split; [done|].
  assert (Hin : handler ∈ (if bool_decide (handler ∈ hs) then hs else hs ++ [handler])).
  { case_bool_decide; [done|]. set_solver. }
  split; [done|]. split; [intros h; case_bool_decide; set_solver|].
  split.
  - intros Hnd. case_bool_decide; [done|]. apply NoDup_app.
    split; [done|]. split; [set_solver|apply NoDup_singleton].
  - destruct (register_handler_handlers handler _ _ H1) as [_ H2].
    by rewrite H2, bool_decide_eq_true_2.
Qed.

(** X25. Registering a handler that was not on the list and removing it
    again gives back the [EventLogger] as it was. *)
Theorem register_then_remove_handler handler x hs :
  handlers (self x) = Some hs →
  handler ∉ hs →
  (remove_handler handler (register_handler handler x).1).2 = Return tt ∧
  self (remove_handler handler (register_handler handler x).1).1 = self x.
Proof.
  intros Hhs Hnot. unfold register_handler. rewrite Hhs.
  rewrite bool_decide_eq_false_2 by done. cbn.
  unfold remove_handler. cbn.
  rewrite bool_decide_eq_true_2 by set_solver. cbn.
  split; [done|]. rewrite list_remove_snoc by done.
  destruct (self x). cbn in *. by subst.
Qed.

(** X26. [remove_handler] on a list without repetition takes the handler
    off the list and leaves every other handler on it; a handler that was not
    on the list is no error. *)
Theorem remove_handler_removes handler x hs :
  handlers (self x) = Some hs →
  NoDup hs →
  ∃ hs',
    remove_handler handler x
    = ({| self := with_handlers (Some hs') (self x);
          _logger := removeHandler (_logger x) handler;
          json_formatted := json_formatted x |}, Return tt) ∧
    (handler ∉ hs') ∧
    (∀ h, h ∈ hs' ↔ h ∈ hs ∧ h ≠ handler) ∧
    (handler ∉ hs → hs' = hs).
Proof.
  intros Hhs Hnd. unfold remove_handler. rewrite Hhs. case_bool_decide as Hin.
  - exists (list_remove handler hs). split; [done|].
    split; [|split].
    + intros [_ Hne]%elem_of_list_remove_NoDup; done.
    + intros h. by apply elem_of_list_remove_NoDup.
    + done.
  - exists hs. split; [by rewrite with_handlers_id|].
    split; [done|]. split; [|done].
    intros h. split; [|by intros [? _]]. intros Hh. split; [done|]. by intros ->.
Qed.

Lemma register_handlers_listed hs : ∀ x hs0,
  handlers (self x) = Some hs0 →
  (∀ h, h ∈ hs → h ∈ hs0) →
  register_handlers hs x
  = ({| self := self x; _logger := foldl addHandler (_logger x) hs;
        json_formatted := json_formatted x ∪ list_to_set hs |}, Return tt).
Proof.
  induction hs as [|h hs IH]; intros x hs0 Hhs Hsub; cbn.
  - destruct x. cbn. do 2 f_equal. set_solver.
  - unfold register_handler. rewrite Hhs.
    rewrite bool_decide_eq_true_2 by (apply Hsub; by left).
    rewrite (IH _ hs0); cbn; [|done|intros ??; apply Hsub; by right].
    do 2 f_equal. set_solver.
Qed.

(** X27. The handler loop of [__init__] leaves the trait as configured,
    a handler listed twice included, and does not raise: every configured
    handler is passed to [addHandler] of the new [logging.Logger], in the
    order of the list, and gets the JSON formatter.  With no handler, or
    with [None], nothing is registered. *)
Theorem init_registers_configured_handlers (new_logger : L) x :
  __init__ new_logger x
  = ({| self := self x;
        _logger := foldl addHandler new_logger (default [] (handlers (self x)));
        json_formatted :=
          json_formatted x ∪ list_to_set (default [] (handlers (self x))) |},
     Return tt).
Proof.
  unfold __init__. destruct (handlers (self x)) as [[|h hs]|] eqn:Hhs; cbn.
  - do 2 f_equal. set_solver.
  - change (match register_handler h _ with
            | (x', Return _) => register_handlers hs x'
            | (x', Raise e) => (x', Raise e)
            end) with (register_handlers (h :: hs)
                         {| self := self x; _logger := new_logger;
                            json_formatted := json_formatted x |}).
    by rewrite (register_handlers_listed _ _ (h :: hs)).
  - do 2 f_equal. set_solver.
Qed.

(** X28. Every handler on the list of the trait carries the JSON
    formatter of [register_handler]: this holds when [__init__] is done, and
    [register_handler] and [remove_handler] keep it. *)
Theorem handlers_stay_formatted (new_logger : L) handler x :
  handlers_formatted (__init__ new_logger x).1 ∧
  (handlers_formatted x → handlers_formatted (register_handler handler x).1) ∧
  (handlers_formatted x → handlers_formatted (remove_handler handler x).1).
Proof.
  split; [|split].
  - unfold __init__. destruct (handlers (self x)) as [[|h0 hs0]|] eqn:Hhs.
    + intros hs h. cbn. rewrite Hhs. intros [= <-] Hin. by apply elem_of_nil in Hin.
    + change (match register_handler h0 _ with
              | (x', Return _) => register_handlers hs0 x'
              | (x', Raise e) => (x', Raise e)
              end) with (register_handlers (h0 :: hs0)
                           {| self := self x; _logger := new_logger;
                              json_formatted := json_formatted x |}).
      rewrite (register_handlers_listed _ _ (h0 :: hs0)) by done.
      intros hs h. cbn. rewrite Hhs. intros [= <-] Hin. set_solver.
    + intros hs h. cbn. by rewrite Hhs.
  - intros Hf hs h. unfold register_handler.
    destruct (handlers (self x)) as [hs0|] eqn:Hhs; [|cbn; by rewrite Hhs].
    case_bool_decide; cbn.
    + rewrite Hhs. intros [= <-] Hin. apply elem_of_union_l. by eapply Hf.
    + intros [= <-] [Hin|Heq%list_elem_of_singleton]%elem_of_app.
      * apply elem_of_union_l. by eapply Hf.
      * subst h. apply elem_of_union_r. set_solver.
  - intros Hf hs h. unfold remove_handler.
    destruct (handlers (self x)) as [hs0|] eqn:Hhs; [|cbn; by rewrite Hhs].
    case_bool_decide; cbn.
    + intros [= <-] Hin%elem_of_list_remove. by eapply Hf.
    + rewrite Hhs. intros [= <-] Hin. by eapply Hf.
Qed.

(** X29. Once a handler is registered on a logger whose trait is a list,
    [emit] no longer takes the fast exit: for a schema id the registry does
    not hold it does not raise, whatever the tables hold, but warns and
    returns [None], recording nothing. *)
Theorem registered_handler_disables_fast_exit
    handler x hs schema_id data timestamp_override :
  handlers (self x) = Some hs →
  contains (schemas (self x)) schema_id = false →
  ∃ st',
    emit object_at schema_id data timestamp_override
      (self (register_handler handler x).1) = (st', Return None) ∧
    logged st' = logged (self x) ∧
    _active_listeners st' = _active_listeners (self x) ∧
    not_registered_text schema_id ∈ onceregistry st'.
Proof.
  intros Hhs Hc.
  assert (Hst : ∃ hs', hs' ≠ [] ∧
            self (register_handler handler x).1 = with_handlers (Some hs') (self x)).
  { unfold register_handler. rewrite Hhs. case_bool_decide as Hin; cbn.
    - exists hs. split; [by intros ->; apply elem_of_nil in Hin|].
      by rewrite with_handlers_id.
    - exists (hs ++ [handler]). split; [by destruct hs|done]. }
  destruct Hst as (hs' & Hne & ->).
  rewrite emit_unregistered_handlers; cbn; [|by destruct hs'|done].
  eexists. split; [done|]. unfold warn. case_bool_decide; cbn; [done|].
  repeat split. set_solver.
Qed.

(** What [_skip_message] hands to [json.dumps] is the record without its
    [message] field, which it deletes in place, so that its output is the
    same whatever that field was; a record without the field makes it raise
    [KeyError]. *)
Lemma skip_message_ignores_message (dumps : dict → string) (record : dict) (a b : value) :
  _skip_message dumps (<["message" := a]> record)
  = (delete "message" record, Return (dumps (delete "message" record))) ∧
  _skip_message dumps (<["message" := a]> record)
  = _skip_message dumps (<["message" := b]> record) ∧
  _skip_message dumps (delete "message" record)
  = (delete "message" record, Raise (KeyError (Some "message"))).
Proof.
  unfold _skip_message.
  rewrite !lookup_insert_eq, !delete_insert_eq, lookup_delete_eq. done.
Qed.

End HandlerProperties.

(** * The methods run on the example logger *)

Module Runs.
Import Example ListRegistry.

(** C1 fails as stated: the tables still have their empty listener sets
    for [S], the registry does not hold [S], no handler is configured.
    [emit] returns [None] at the guard; the warning is not issued. *)
Lemma emit_unregistered_silent_at_fast_exit :
  contains (schemas unregistered_behind) "S" = false ∧
  handlers unregistered_behind = Some [] ∧
  emit objects "S" 0 None unregistered_behind = (unregistered_behind, Return None) ∧
  warnings_shown unregistered_behind = [] ∧
  not_registered_text "S" ∉ onceregistry unregistered_behind.
Proof.
  split; [reflexivity|]. split; [reflexivity|].
  split; [by vm_compute|]. split; [reflexivity|].
  vm_compute. discriminate.
Qed.

(** The amended C1 on the example: a logger with a handler and nothing
    registered warns about [S], once. *)
Lemma emit_unregistered_witness :
  ∃ st',
    emit objects "S" 0 None fresh_with_handler = (st', Return None) ∧
    logged st' = logged fresh_with_handler ∧
    _active_listeners st' = _active_listeners fresh_with_handler ∧
    heap st' = heap fresh_with_handler ∧
    not_registered_text "S" ∈ onceregistry st' ∧
    (not_registered_text "S" ∉ onceregistry fresh_with_handler →
       warnings_shown st'
       = warnings_shown fresh_with_handler ++ [not_registered_text "S"]) ∧
    (not_registered_text "S" ∈ onceregistry fresh_with_handler →
       st' = fresh_with_handler).
Proof.
  apply (emit_unregistered objects fresh_with_handler "S" 0 None false).
  - vm_compute; reflexivity.
  - vm_compute; reflexivity.
Defined.

(** C6. A logger just constructed has no handler and no listener of any
    kind, and [S] was never registered: [emit] does not return [None], it
    raises [KeyError] from the guard, which subscripts
    [self._modified_listeners] with an id that has no entry.  Where both sets
    are there and empty the guard does return [None] ([emit_fast_exit]). *)
Theorem emit_nothing_listening_no_entry_raises :
  handlers fresh = Some [] ∧
  _modified_listeners fresh !! "S" = None ∧
  _unmodified_listeners fresh !! "S" = None ∧
  emit objects "S" 0 None fresh = (fresh, Raise (KeyError (Some "S"))).
Proof. do 3 (split; [reflexivity|]). by apply emit_no_entry_no_handlers. Qed.

(** C2. With the schema [S] registered, adding the valid listener 2 for
    unmodified events without a schema id raises [KeyError(None)] and adds
    it nowhere; the branch for modified events reaches every schema
    ([add_listener_modified_all]). *)
Theorem add_listener_unmodified_for_all_raises :
  add_listener objects false None 2%positive registered
  = (registered, Raise (KeyError None)) ∧
  _unmodified_listeners registered !! "S" = Some ∅.
Proof.
  split; [|by vm_compute].
  by eapply (add_listener_unmodified_all_raises objects registered 2%positive).
Qed.

(** The modified branch on the same logger. *)
Example add_listener_modified_for_all_adds :
  ∃ st', add_listener objects true None 2%positive registered = (st', Return tt) ∧
         _modified_listeners st' !! "S" = Some {[2%positive]}.
Proof. eexists. split; by vm_compute. Qed.

(** C3 on the example: the dictionary at 0 is invalid and no modifier is
    registered. *)
Lemma emit_invalid_modified_data_aborts_witness :
  ∃ e',
    emit objects "S" 0 None registered_with_handler = (copied 0, Raise e') ∧
    (e' = invalid ∨
     validate_event (schemas registered_with_handler) "S" (heap (copied 0) !!! 0)
     = Raise e') ∧
    logged (copied 0) = logged registered_with_handler ∧
    _active_listeners (copied 0) = _active_listeners registered_with_handler.
Proof.
  apply (emit_invalid_modified_data_aborts objects registered_with_handler "S" 0 None
           (descriptor schema_S) (copied 0) 3 invalid).
  - split; vm_compute; reflexivity.
  - vm_compute; reflexivity.
  - vm_compute; reflexivity.
  - vm_compute; reflexivity.
  - vm_compute; reflexivity.
  - vm_compute; reflexivity.
Defined.

(** C4 fails as stated: with the fixing modifier registered, no handler
    and no listener, the invalid dictionary at 0 would be recorded once fixed,
    but [emit] returns [None] at its guard and records nothing. *)
Lemma emit_fixed_data_silent_without_sink :
  contains (schemas with_fixer) "S" = true ∧
  validate_event (schemas with_fixer) "S" (heap with_fixer !!! 0) = Raise invalid ∧
  (∃ st1 modified_data,
     apply_modifiers objects (descriptor schema_S) "S" 0 with_fixer
     = (st1, Return modified_data) ∧
     validate_event (schemas with_fixer) "S" (heap st1 !!! modified_data) = Return tt) ∧
  _unmodified_listeners with_fixer !! "S" = Some ∅ ∧
  emit objects "S" 0 None with_fixer = (with_fixer, Return None) ∧
  logged with_fixer = [].
Proof.
  split; [by vm_compute|]. split; [by vm_compute|].
  split; [eexists _, _; split; by vm_compute|].
  split; [by vm_compute|]. split; [|by vm_compute].
  by vm_compute.
Qed.

(** The amended C4 on the example: with the listener 2 of unmodified
    events the invalid dictionary at 0 makes [emit] raise; with a handler
    and no such listener it is recorded as fixed. *)
Lemma emit_raw_data_checked_iff_unmodified_listener_witness :
  emit objects "S" 0 None with_raw_listener = (fixed_raw, Raise invalid) ∧
  ∃ st',
    emit objects "S" 0 None with_fixer_and_handler
    = (st', Return (Some (make_capsule "S" (descriptor schema_S) "2022-08-11T10:15:00"
                            (heap fixed !!! 3)))) ∧
    logged st' = logged with_fixer_and_handler
                 ++ [make_capsule "S" (descriptor schema_S) "2022-08-11T10:15:00"
                       (heap fixed !!! 3)].
Proof.
  split.
  - apply (emit_raw_data_checked_iff_unmodified_listener objects with_raw_listener
             "S" 0 None (descriptor schema_S) fixed_raw 3 ∅ {[2%positive]} invalid).
    + vm_compute; reflexivity.
    + vm_compute; reflexivity.
    + reflexivity.
    + vm_compute; lia.
    + vm_compute; reflexivity.
    + vm_compute; reflexivity.
    + vm_compute; reflexivity.
    + vm_compute; reflexivity.
    + vm_compute; reflexivity.
    + intros H. vm_compute in H. discriminate H.
  - apply (emit_raw_data_checked_iff_unmodified_listener objects with_fixer_and_handler
             "S" 0 None (descriptor schema_S) fixed 3 ∅ ∅ invalid).
    + vm_compute; reflexivity.
    + vm_compute; reflexivity.
    + reflexivity.
    + vm_compute; lia.
    + vm_compute; reflexivity.
    + vm_compute; reflexivity.
    + vm_compute; reflexivity.
    + vm_compute; reflexivity.
    + vm_compute; reflexivity.
    + reflexivity.
    + left. vm_compute; reflexivity.
Defined.

(** C5 fails as stated: the valid dictionary at 2 holds the key
    [__schema__]; the capsule recorded and returned carries its value
    ["evil"] under that key, not the schema id ["S"]. *)
Lemma emit_capsule_schema_key_taken_from_data :
  ∃ st' capsule,
    emit objects "S" 2 None registered_with_handler = (st', Return (Some capsule)) ∧
    logged st' = [capsule] ∧
    capsule !! "__schema__" = Some (VStr "evil") ∧
    capsule !! "__schema__" ≠ Some (VStr "S").
Proof.
  eexists _, _. split; [by vm_compute|]. split; [by vm_compute|].
  split; [by vm_compute|]. vm_compute. discriminate.
Qed.

(** The amended C5 on the example: the dictionary at 1 is [{"x": 5}]. *)
Lemma emit_capsule_fields_witness :
  ∃ schema st1 modified_data,
    get (schemas registered_with_handler) "S" = Return schema ∧
    apply_modifiers objects schema "S" 1 registered_with_handler
    = (st1, Return modified_data) ∧
    logged (emit objects "S" 1 None registered_with_handler).1
    = logged registered_with_handler ++ [capsule_of 1] ∧
    let md := heap st1 !!! modified_data in
    (∀ k v, md !! k = Some v → capsule_of 1 !! k = Some v) ∧
    (md !! "__timestamp__" = None →
       capsule_of 1 !! "__timestamp__" =
       Some (VStr (isoformat (default (clock registered_with_handler) None) +:+ "Z"))) ∧
    (md !! "__schema__" = None → capsule_of 1 !! "__schema__" = Some (VStr "S")) ∧
    (md !! "__schema_version__" = None →
       capsule_of 1 !! "__schema_version__"
       = Some (EventSchema.version schema)) ∧
    (md !! "__metadata_version__" = None →
       capsule_of 1 !! "__metadata_version__" = Some (VInt 1)) ∧
    (∀ k, k ∉ reserved_keys → capsule_of 1 !! k = md !! k).
Proof.
  apply (emit_capsule_fields objects registered_with_handler "S" 1 None).
  vm_compute; reflexivity.
Defined.

(** The fast exit on the example: [S] is registered, nobody listens, and
    the dictionary at 0 is not even valid. *)
Example emit_fast_exit_registered :
  emit objects "S" 0 None registered = (registered, Return None).
Proof.
  apply (emit_fast_exit objects registered "S" 0 None).
  - vm_compute; reflexivity.
  - vm_compute; reflexivity.
  - vm_compute; reflexivity.
Qed.

(** C7 on the example: the modifier has set [x] to 1 in the copy; the
    caller's dictionary at 0 still holds ["bad"]. *)
Lemma emit_keeps_caller_data_witness :
  heap (emit objects "S" 0 None with_fixer_and_handler).1 !! 0
  = heap with_fixer_and_handler !! 0.
Proof.
  apply (emit_keeps_caller_data objects with_fixer_and_handler "S" 0 None).
  vm_compute; lia.
Defined.

(** Without the copy the caller would see the modifier at work: called on
    the caller's dictionary at 0, the modifier 1 sets its [x] to 1. *)
Example call_modifier_on_caller_data :
  heap (call_modifier objects 1%positive "S" 0 with_fixer).1 !! 0
  = Some {[ "x" := VInt 1 ]} ∧
  heap with_fixer !! 0 = Some {[ "x" := VStr "bad" ]}.
Proof. split; by vm_compute. Qed.

(** C8 fails as stated: the modifier 1 is already registered for [S];
    adding it again and removing it leaves the set of [S] empty. *)
Lemma add_then_remove_drops_present_modifier :
  ∃ st',
    (add_modifier objects (Some "S") 1%positive;;
     remove_modifier (Some "S") 1%positive) with_fixer = (st', Return tt) ∧
    _modifiers with_fixer !! "S" = Some {[1%positive]} ∧
    _modifiers st' !! "S" = Some ∅ ∧
    _modifiers st' ≠ _modifiers with_fixer.
Proof.
  eexists. split; [by vm_compute|]. split; [by vm_compute|].
  split; [by vm_compute|]. vm_compute. discriminate.
Qed.

(** The amended C8 on the example: nothing is registered for [S] yet. *)
Lemma add_then_remove_restores_witness :
  (add_modifier objects (Some "S") 1%positive;;
   remove_modifier (Some "S") 1%positive) registered = (registered, Return tt) ∧
  (add_listener objects false (Some "S") 2%positive;;
   remove_listener (Some "S") 2%positive) registered = (registered, Return tt).
Proof.
  split.
  - eapply (add_then_remove_restores objects registered "S").
    + discriminate.
    + reflexivity.
    + vm_compute; reflexivity.
    + vm_compute; discriminate.
  - eapply (add_then_remove_restores objects registered "S").
    + discriminate.
    + reflexivity.
    + vm_compute; reflexivity.
    + vm_compute; reflexivity.
    + vm_compute; discriminate.
    + vm_compute; discriminate.
Defined.

(** C9 on the example: the dictionary at 2 brings its own [__schema__]. *)
Lemma emit_data_overwrites_reserved_witness :
  capsule_of 2 !! "__schema__" = Some (VStr "evil") ∧
  last (logged (emit objects "S" 2 None registered_with_handler).1)
  = Some (capsule_of 2) ∧
  is_Some (make_capsule "S" (descriptor schema_S)
             (default (clock registered_with_handler) None) ∅ !! "__schema__").
Proof.
  apply (emit_data_overwrites_reserved objects registered_with_handler "S" 2 None
           (emit objects "S" 2 None registered_with_handler).1 (capsule_of 2)
           (descriptor schema_S) (copied 2) 3 "__schema__" (VStr "evil")).
  - vm_compute; reflexivity.
  - vm_compute; reflexivity.
  - vm_compute; reflexivity.
  - unfold reserved_keys. right. left.
  - vm_compute; reflexivity.
Defined.

(** C10 on the example: the tables still hold the modifier 1 for [S]
    when [S] is registered again. *)
Lemma register_event_schema_resets_witness :
  _modifiers unregistered_behind !! "S" = Some {[1%positive]} ∧
  ∃ st',
    register_event_schema schema_S unregistered_behind = (st', Return tt) ∧
    schemas st' = [schema_S] ∧
    _modifiers st' = <["S" := ∅]> (_modifiers unregistered_behind) ∧
    _modified_listeners st' = <["S" := ∅]> (_modified_listeners unregistered_behind) ∧
    _unmodified_listeners st'
    = <["S" := ∅]> (_unmodified_listeners unregistered_behind) ∧
    _modifiers st' !! "S" = Some ∅ ∧
    _modified_listeners st' !! "S" = Some ∅ ∧
    _unmodified_listeners st' !! "S" = Some ∅.
Proof.
  split; [vm_compute; reflexivity|].
  apply (register_event_schema_resets unregistered_behind schema_S [schema_S]
           (descriptor schema_S)).
  vm_compute; reflexivity.
Defined.

End Runs.

(** * The further properties on the example loggers *)

Module MoreRuns.
Import Example Example2 ListRegistry.

(** X1 on the example: object 3 has another signature. *)
Lemma add_modifier_rejects_witness :
  ∃ e, add_modifier objects (Some "S") 3%positive registered = (registered, Raise e) ∧
       rejection ModifierError e.
Proof.
  apply (add_modifier_rejects objects (Some "S") 3%positive registered).
  intros call H. vm_compute in H. discriminate H.
Defined.

(** X2 on the example: the modifier 1 is no listener. *)
Lemma add_listener_rejects_witness :
  ∃ e, add_listener objects true (Some "S") 1%positive registered
       = (registered, Raise e) ∧
       rejection ListenerError e.
Proof.
  apply (add_listener_rejects objects true (Some "S") 1%positive registered).
  intros call H. vm_compute in H. discriminate H.
Defined.

(** X3 on the example: no schema [T] was registered. *)
Lemma unknown_schema_id_raises_witness :
  add_modifier objects (Some "T") 1%positive registered
  = (registered, Raise (KeyError (Some "T"))) ∧
  remove_modifier (Some "T") 1%positive registered
  = (registered, Raise (KeyError (Some "T"))) ∧
  add_listener objects false (Some "T") 2%positive registered
  = (registered, Raise (KeyError (Some "T"))) ∧
  remove_listener (Some "T") 2%positive registered
  = (registered, Raise (KeyError (Some "T"))).
Proof.
  eapply (unknown_schema_id_raises objects registered "T" 1%positive 2%positive).
  - discriminate.
  - split; vm_compute; reflexivity.
  - vm_compute; reflexivity.
  - reflexivity.
  - reflexivity.
Defined.

(** X4 on the example. *)
Lemma add_twice_is_add_once_witness :
  (add_modifier objects (Some "S") 1%positive;;
   add_modifier objects (Some "S") 1%positive) registered
  = add_modifier objects (Some "S") 1%positive registered ∧
  (add_listener objects false (Some "S") 2%positive;;
   add_listener objects false (Some "S") 2%positive) registered
  = add_listener objects false (Some "S") 2%positive registered.
Proof.
  eapply (add_twice_is_add_once objects registered "S" 1%positive 2%positive).
  - discriminate.
  - vm_compute; reflexivity.
  - vm_compute; reflexivity.
  - vm_compute; reflexivity.
  - reflexivity.
  - reflexivity.
Defined.

(** X5 on the example. *)
Lemma add_modifier_everywhere_witness :
  add_modifier objects None 1%positive registered
  = (with_modifiers ((λ s, s ∪ {[1%positive]}) <$> _modifiers registered) registered,
     Return tt).
Proof.
  eapply (add_modifier_everywhere objects registered 1%positive).
  reflexivity.
Defined.

(** X6 on the example: [S] is the one schema the registry lists. *)
Lemma remove_modifier_everywhere_witness :
  ∃ tbl : table,
    remove_modifier None 1%positive with_fixer = (with_modifiers tbl with_fixer, Return tt) ∧
    ∀ k, tbl !! k =
         if bool_decide (k ∈ schema_ids (schemas with_fixer))
         then (λ s, s ∖ {[1%positive]}) <$> _modifiers with_fixer !! k
         else _modifiers with_fixer !! k.
Proof.
  apply (remove_modifier_everywhere objects with_fixer 1%positive).
  intros id Hid. vm_compute in Hid. apply list_elem_of_singleton in Hid as ->.
  eexists. vm_compute; reflexivity.
Defined.

(** X7 on the example: the registry was given [S] directly. *)
Lemma remove_modifier_everywhere_missing_witness :
  ∃ st' id',
    remove_modifier None 1%positive direct = (st', Raise (KeyError (Some id'))) ∧
    id' ∈ schema_ids (schemas direct) ∧ _modifiers direct !! id' = None.
Proof.
  apply (remove_modifier_everywhere_missing objects direct 1%positive).
  exists "S". split; [left|vm_compute; reflexivity].
Defined.

(** X8 on the example. *)
Lemma add_listener_modified_everywhere_witness :
  ∃ tbl : table,
    add_listener objects true None 2%positive registered
    = (with_modified_listeners tbl registered, Return tt) ∧
    ∀ k, tbl !! k =
         if bool_decide (k ∈ schema_ids (schemas registered))
         then (λ s, s ∪ {[2%positive]}) <$> _modified_listeners registered !! k
         else _modified_listeners registered !! k.
Proof.
  eapply (add_listener_modified_everywhere objects registered 2%positive).
  - reflexivity.
  - intros id Hid. vm_compute in Hid. apply list_elem_of_singleton in Hid as ->.
    eexists. vm_compute; reflexivity.
Defined.

(** X9 on the example. *)
Lemma remove_listener_everywhere_witness :
  ∃ t1 t2 : table,
    remove_listener None 5%positive with_listeners
    = (with_unmodified_listeners t2 (with_modified_listeners t1 with_listeners),
       Return tt) ∧
    (∀ k, t1 !! k = if bool_decide (k ∈ schema_ids (schemas with_listeners))
                    then (λ s, s ∖ {[5%positive]})
                           <$> _modified_listeners with_listeners !! k
                    else _modified_listeners with_listeners !! k) ∧
    (∀ k, t2 !! k = if bool_decide (k ∈ schema_ids (schemas with_listeners))
                    then (λ s, s ∖ {[5%positive]})
                           <$> _unmodified_listeners with_listeners !! k
                    else _unmodified_listeners with_listeners !! k).
Proof.
  apply (remove_listener_everywhere objects2 with_listeners 5%positive).
  intros id Hid. vm_compute in Hid. apply list_elem_of_singleton in Hid as ->.
  split; eexists; vm_compute; reflexivity.
Defined.

(** X10 on the example. *)
Lemma remove_absent_changes_nothing_witness :
  remove_modifier (Some "S") 1%positive registered = (registered, Return tt) ∧
  remove_listener (Some "S") 2%positive registered = (registered, Return tt).
Proof.
  eapply (remove_absent_changes_nothing objects registered "S" 1%positive 2%positive).
  - discriminate.
  - vm_compute; reflexivity.
  - vm_compute; reflexivity.
  - vm_compute; reflexivity.
  - vm_compute; discriminate.
  - vm_compute; discriminate.
  - vm_compute; discriminate.
Defined.

(** X11 on the example. *)
Lemma schema_operations_are_isolated_witness :
  same_elsewhere "S" registered (add_modifier objects (Some "S") 1%positive registered).1 ∧
  same_elsewhere "S" registered (remove_modifier (Some "S") 1%positive registered).1 ∧
  same_elsewhere "S" registered
    (add_listener objects false (Some "S") 2%positive registered).1 ∧
  same_elsewhere "S" registered (remove_listener (Some "S") 2%positive registered).1.
Proof.
  apply (schema_operations_are_isolated objects registered "S" 1%positive 2%positive false).
  discriminate.
Defined.

(** X12 on the example. *)
Lemma methods_keep_tables_aligned_witness :
  tables_aligned (register_event_schema schema_S registered).1 ∧
  tables_aligned (add_modifier objects (Some "S") 1%positive registered).1 ∧
  tables_aligned (remove_modifier (Some "S") 1%positive registered).1 ∧
  tables_aligned (add_listener objects true (Some "S") 2%positive registered).1 ∧
  tables_aligned (remove_listener (Some "S") 2%positive registered).1 ∧
  tables_aligned (emit objects "S" 1 None registered).1.
Proof.
  apply (methods_keep_tables_aligned objects registered schema_S (Some "S")
           1%positive 2%positive true "S" 1 None).
  split; vm_compute; reflexivity.
Defined.

(** X13 on the example. *)
Lemma registered_schema_takes_fast_exit_witness :
  emit objects "S" 1 None registered = (registered, Return None).
Proof.
  apply (registered_schema_takes_fast_exit objects fresh schema_S [schema_S]
           (descriptor schema_S) 1 None).
  - reflexivity.
  - reflexivity.
Defined.

(** X14 on the example. *)
Lemma registered_schema_accepts_callbacks_witness :
  (∃ st', (register_event_schema schema_S;;
           add_modifier objects (Some "S") 1%positive) fresh = (st', Return tt) ∧
          _modifiers st' !! "S" = Some {[1%positive]}) ∧
  (∃ st', (register_event_schema schema_S;;
           add_listener objects false (Some "S") 2%positive) fresh = (st', Return tt) ∧
          _unmodified_listeners st' !! "S" = Some {[2%positive]} ∧
          _modified_listeners st' !! "S" = Some ∅).
Proof.
  eapply (registered_schema_accepts_callbacks objects fresh schema_S [schema_S]
            (descriptor schema_S) 1%positive 2%positive _ _ false).
  - reflexivity.
  - discriminate.
  - reflexivity.
  - reflexivity.
Defined.

(** X16 on the example. *)
Lemma emit_side_effects_imply_valid_witness :
  ∃ schema st1 modified_data,
    get (schemas with_listeners) "S" = Return schema ∧
    apply_modifiers objects2 schema "S" 1 with_listeners = (st1, Return modified_data) ∧
    validate_event (schemas with_listeners) "S" (heap st1 !!! modified_data) = Return tt.
Proof.
  apply (emit_side_effects_imply_valid objects2 with_listeners "S" 1 None
           (emit objects2 "S" 1 None with_listeners).1
           (emit objects2 "S" 1 None with_listeners).2).
  - vm_compute; reflexivity.
  - left. vm_compute. discriminate.
Defined.

(** X17 on the example: listener 2 gets the copy at 3, listener 5 the
    caller's dictionary at 1. *)
Lemma emit_schedules_listeners_witness :
  emit objects2 "S" 1 None with_listeners
  = (with_active_listeners
       (_active_listeners with_listeners ++
        tasks_for {[2%positive]} "S" 3 ++ tasks_for {[5%positive]} "S" 1)
       (with_logged
          (logged with_listeners ++
           [make_capsule "S" (descriptor schema_S)
              (default (clock with_listeners) None) (heap with_listeners_fixed !!! 3)])
          with_listeners_fixed),
     Return (Some (make_capsule "S" (descriptor schema_S)
                     (default (clock with_listeners) None)
                     (heap with_listeners_fixed !!! 3)))).
Proof.
  apply (emit_schedules_listeners objects2 with_listeners "S" 1 None
           (descriptor schema_S) with_listeners_fixed 3 {[2%positive]} {[5%positive]});
    vm_compute; reflexivity.
Defined.

(** X18 on the example. *)
Lemma emit_without_modifiers_records_input_witness :
  capsule_of 1
  = make_capsule "S" (descriptor schema_S)
      (default (clock registered_with_handler) None) (heap registered_with_handler !!! 1) ∧
  ∀ k, k ∉ reserved_keys →
       capsule_of 1 !! k = (heap registered_with_handler !!! 1) !! k.
Proof.
  apply (emit_without_modifiers_records_input objects registered_with_handler "S" 1 None
           (emit objects "S" 1 None registered_with_handler).1 (capsule_of 1)
           (descriptor schema_S));
    vm_compute; reflexivity.
Defined.

(** X19 on the example: no schema [T] is registered. *)
Lemma emit_unregistered_warns_once_witness :
  not_registered_text "T"
    ∈ onceregistry (emit objects "T" 1 None fresh_with_handler).1 ∧
  emit objects "T" 0 None (emit objects "T" 1 None fresh_with_handler).1
  = ((emit objects "T" 1 None fresh_with_handler).1, Return None).
Proof.
  apply (emit_unregistered_warns_once objects fresh_with_handler "T" 1 None 0 None);
    reflexivity.
Defined.

(** X20 on the example: the modifier 4 raises. *)
Lemma emit_modifier_error_aborts_witness :
  emit objects2 "S" 1 None with_failing_modifier = (failed, Raise (RuntimeError "boom")) ∧
  logged failed = logged with_failing_modifier ∧
  _active_listeners failed = _active_listeners with_failing_modifier ∧
  heap with_failing_modifier `prefix_of` heap failed.
Proof.
  apply (emit_modifier_error_aborts objects2 with_failing_modifier "S" 1 None
           (descriptor schema_S) failed (RuntimeError "boom"));
    vm_compute; reflexivity.
Defined.

(** X21 on the example: the registry was given [S] directly. *)
Lemma emit_schema_without_entry_raises_witness :
  emit objects "S" 1 None direct_with_handler
  = (with_heap (heap direct_with_handler ++ [heap direct_with_handler !!! 1])
       direct_with_handler,
     Raise (KeyError (Some "S"))).
Proof.
  apply (emit_schema_without_entry_raises objects direct_with_handler "S" 1 None
           (descriptor schema_S));
    vm_compute; reflexivity.
Defined.

(** X22 on the example. *)
Lemma emit_schedules_only_own_listeners_witness :
  ∃ new,
    _active_listeners (emit objects2 "S" 1 None with_listeners).1
    = _active_listeners with_listeners ++ new ∧
    ∀ t, t ∈ new →
         task_schema_id t = "S" ∧
         (task_listener t ∈ default ∅ (_modified_listeners with_listeners !! "S") ∧
          task_data t ≠ 1
          ∨ task_listener t ∈ default ∅ (_unmodified_listeners with_listeners !! "S") ∧
            task_data t = 1).
Proof.
  apply (emit_schedules_only_own_listeners objects2 with_listeners "S" 1 None
           (emit objects2 "S" 1 None with_listeners).1
           (emit objects2 "S" 1 None with_listeners).2).
  - vm_compute; lia.
  - vm_compute; reflexivity.
Defined.

(** X23 on the example: with listener 5 removed, listener 2 is the one
    scheduled. *)
Lemma removed_listener_is_not_scheduled_witness :
  {| task_listener := 2%positive; task_schema_id := "S"; task_data := 3 |}
    ∈ _active_listeners with_listeners
  ∨ task_listener {| task_listener := 2%positive; task_schema_id := "S"; task_data := 3 |}
    ≠ 5%positive.
Proof.
  apply (removed_listener_is_not_scheduled objects2 with_listeners "S" 5%positive
           {[2%positive]} {[5%positive]} 1 None).
  - discriminate.
  - vm_compute; reflexivity.
  - vm_compute; reflexivity.
  - vm_compute. left.
Defined.

(** X24 on the example. *)
Lemma register_handler_is_idempotent_witness :
  ∃ hs',
    handlers (self (register_handler 8%positive unattached).1) = Some hs' ∧
    8%positive ∈ hs' ∧
    (∀ h, h ∈ [7%positive] → h ∈ hs') ∧
    (NoDup [7%positive] → NoDup hs') ∧
    handlers (self (register_handler 8%positive
                      (register_handler 8%positive unattached).1).1) = Some hs'.
Proof.
  apply (register_handler_is_idempotent objects 8%positive unattached [7%positive]).
  reflexivity.
Defined.

(** X25 on the example. *)
Lemma register_then_remove_handler_witness :
  (remove_handler 8%positive (register_handler 8%positive unattached).1).2 = Return tt ∧
  self (remove_handler 8%positive (register_handler 8%positive unattached).1).1
  = self unattached.
Proof.
  apply (register_then_remove_handler objects 8%positive unattached [7%positive]).
  - reflexivity.
  - intros H. apply list_elem_of_singleton in H. discriminate H.
Defined.

(** X26 on the example. *)
Lemma remove_handler_removes_witness :
  ∃ hs',
    remove_handler 7%positive two_handlers
    = ({| self := with_handlers (Some hs') (self two_handlers);
          _logger := removeHandler (_logger two_handlers) 7%positive;
          json_formatted := json_formatted two_handlers |}, Return tt) ∧
    (7%positive ∉ hs') ∧
    (∀ h, h ∈ hs' ↔ h ∈ [7%positive; 8%positive] ∧ h ≠ 7%positive) ∧
    (7%positive ∉ [7%positive; 8%positive] → hs' = [7%positive; 8%positive]).
Proof.
  apply (remove_handler_removes 7%positive two_handlers [7%positive; 8%positive]).
  - reflexivity.
  - apply (bool_decide_unpack _). vm_compute. reflexivity.
Defined.

(** X29 on the example: a logger without handlers gets one. *)
Lemma registered_handler_disables_fast_exit_witness :
  ∃ st',
    emit objects "T" 1 None
      (self (register_handler 7%positive
               {| self := fresh; _logger := []; json_formatted := ∅ |}).1)
    = (st', Return None) ∧
    logged st' = logged fresh ∧
    _active_listeners st' = _active_listeners fresh ∧
    not_registered_text "T" ∈ onceregistry st'.
Proof.
  apply (registered_handler_disables_fast_exit objects 7%positive
           {| self := fresh; _logger := []; json_formatted := ∅ |} [] "T" 1 None);
    reflexivity.
Defined.

End MoreRuns.
